(** * vitest-stylelint-utils: the rule test driver of [src/get-test-rule.ts]

    A shallow embedding of [getTestRule], [setupTestCases] and [getOutputCss].

    - Schema and case objects are records; an optional property [p?: T] is an
      [option T] whose [None] is JavaScript's [undefined].
    - The test runner is modelled by the tree of suites and tests that the
      [describe]/[it] calls register.
    - A test function is a computation in a small state-and-error monad: the
      state is the log of engine invocations and expectations made so far, the
      error is the exception that ends the test.
    - The linting engine, [util.inspect] and postcss' stringifier are
      collaborators from outside the repository; the engine and [util.inspect]
      are variables of the development, a postcss root is the object that
      carries its [toString] method. *)

From Stdlib Require Import ZArith.
From stdpp Require Import base option strings list.

Open Scope string_scope.
Open Scope list_scope.

(** ** JavaScript values *)

(** The rule configuration has type [unknown]: any JavaScript value. *)
#[warnings="-register-all"]
Inductive JsValue : Type :=
| JsUndefined
| JsNull
| JsBool (b : bool)
| JsNum (z : Z)
| JsStr (s : string)
| JsArr (elements : list JsValue)
| JsObj (properties : list (string * JsValue)).

(** Property values the driver compares: strings and (integral) numbers. *)
Inductive JsPrim : Type :=
| PStr (s : string)
| PNum (z : Z).

#[global] Instance JsPrim_eq_dec : EqDecision JsPrim.
Proof. solve_decision. Defined.

(** Truthiness of an optional boolean: [undefined] and [false] are falsy. *)
Definition truthy_bool (b : option bool) : bool :=
  match b with
  | Some true => true
  | _ => false
  end.

(** Truthiness of an optional string: [undefined] and [''] are falsy. *)
Definition truthy_string (s : option string) : bool :=
  match s with
  | Some "" => false
  | Some _ => true
  | None => false
  end.

(** [s || fallback] on an optional string. *)
Definition or_string (s : option string) (fallback : string) : string :=
  match s with
  | Some "" => fallback
  | Some s => s
  | None => fallback
  end.

(** The double quote character, for messages that contain it. *)
Definition dq : string := String (Ascii.ascii_of_nat 34) EmptyString.

(** ** The test schema (lines 5-151)

    [fix] is a reserved word here: the property is spelt [fix_]. *)

Module TestCase.
Record t : Type := mk {
  code : string;
  description : option string;
  only : option bool;
  skip : option bool;
}.
End TestCase.

Definition AcceptTestCase : Type := TestCase.t.

Module Warning.
Record t : Type := mk {
  message : option string;
  line : option Z;
  column : option Z;
  endLine : option Z;
  endColumn : option Z;
}.
End Warning.

(** [RejectTestCase = TestCase & Warning & { fixed?, unfixable?, warnings? }]:
    the intersection is one flat object. *)
Module RejectTestCase.
Record t : Type := mk {
  code : string;
  description : option string;
  only : option bool;
  skip : option bool;
  message : option string;
  line : option Z;
  column : option Z;
  endLine : option Z;
  endColumn : option Z;
  fixed : option string;
  unfixable : option bool;
  warnings : option (list Warning.t);
}.

(** The same object seen at its two supertypes. *)
Definition as_TestCase (c : t) : TestCase.t :=
  TestCase.mk (code c) (description c) (only c) (skip c).

Definition as_Warning (c : t) : Warning.t :=
  Warning.mk (message c) (line c) (column c) (endLine c) (endColumn c).
End RejectTestCase.

(** [plugins?: string | string[]]. *)
Inductive Plugins : Type :=
| PluginPath (path : string)
| PluginPaths (paths : list string).

(** Truthiness of [plugins]: the empty string is falsy, every array (the
    empty one too) is truthy. *)
Definition truthy_plugins (p : option Plugins) : bool :=
  match p with
  | None => false
  | Some (PluginPath "") => false
  | Some _ => true
  end.

(** An element of a cases array as JavaScript sees it: the type says every
    element is a case object, the [if (testCase)] guard of [setupTestCases]
    also admits the falsy values. *)
Inductive Falsy : Type :=
| FUndefined | FNull | FFalse | FZero | FNaN | FEmptyString.

Inductive Entry (T : Type) : Type :=
| Hole (v : Falsy)
| Case (testCase : T).
Arguments Hole {T} v.
Arguments Case {T} testCase.

Module TestSchema.
Record t : Type := mk {
  ruleName : string;
  config : JsValue;
  accept : option (list (Entry AcceptTestCase));
  reject : option (list (Entry RejectTestCase.t));
  fix_ : option bool;
  plugins : option Plugins;
  customSyntax : option string;
  codeFilename : option string;
  only : option bool;
  skip : option bool;
}.
End TestSchema.

Module GetTestRuleOptions.
Record t : Type := mk {
  plugins : option Plugins;
}.
End GetTestRuleOptions.

(** [T extends TestCase]: what [setupTestCases] reads of a case. *)
Class ExtendsTestCase (T : Type) : Type :=
  upcast : T -> TestCase.t.

#[global] Instance AcceptTestCase_extends : ExtendsTestCase AcceptTestCase :=
  fun c => c.
#[global] Instance RejectTestCase_extends : ExtendsTestCase RejectTestCase.t :=
  RejectTestCase.as_TestCase.

(** ** The linting engine's interface (stylelint's types) *)

Module StylelintConfig.
Record t : Type := mk {
  plugins : option Plugins;
  rules : list (string * JsValue);
}.
End StylelintConfig.

Module StylelintOptions.
Record t : Type := mk {
  code : string;
  config : StylelintConfig.t;
  customSyntax : option string;
  codeFilename : option string;
  fix_ : option bool;
}.

Definition with_fix (f : option bool) (o : t) : t :=
  mk (code o) (config o) (customSyntax o) (codeFilename o) f.

Definition with_code (c : string) (o : t) : t :=
  mk c (config o) (customSyntax o) (codeFilename o) (fix_ o).
End StylelintOptions.

Inductive Severity : Type := SeverityWarning | SeverityError.

#[global] Instance Severity_eq_dec : EqDecision Severity.
Proof. solve_decision. Defined.

(** A warning as the engine reports it. The engine builds every warning with
    the same keys, [endLine] and [endColumn] possibly [undefined]. *)
Module LintWarning.
Record t : Type := mk {
  line : Z;
  column : Z;
  endLine : option Z;
  endColumn : option Z;
  rule : string;
  severity : Severity;
  text : string;
}.
End LintWarning.

#[global] Instance LintWarning_eq_dec : EqDecision LintWarning.t.
Proof. solve_decision. Defined.

Module InvalidOptionWarning.
Record t : Type := mk {
  text : string;
}.
End InvalidOptionWarning.

#[global] Instance InvalidOptionWarning_eq_dec : EqDecision InvalidOptionWarning.t.
Proof. solve_decision. Defined.

(** The driver only ever asks whether [parseErrors] is empty. *)
Module ParseError.
Record t : Type := mk {
  line : Z;
  column : Z;
  text : string;
}.
End ParseError.

#[global] Instance ParseError_eq_dec : EqDecision ParseError.t.
Proof. solve_decision. Defined.

(** A postcss syntax is opaque to the driver; it is named by an identifier. *)
Definition Syntax : Type := string.

(** A postcss root is used through [toString(syntax)] only. *)
Module Root.
Record t : Type := mk {
  toString : option Syntax -> string;
}.
End Root.

Module ResultOptions.
Record t : Type := mk {
  syntax : option Syntax;
}.
End ResultOptions.

Module PostcssResult.
Record t : Type := mk {
  root : option Root.t;
  opts : option ResultOptions.t;
}.
End PostcssResult.

Module LintResult.
Record t : Type := mk {
  warnings : list LintWarning.t;
  parseErrors : list ParseError.t;
  invalidOptionWarnings : list InvalidOptionWarning.t;
  _postcssResult : option PostcssResult.t;
}.
End LintResult.

Module LinterResult.
Record t : Type := mk {
  results : list LintResult.t;
}.
End LinterResult.

(** ** The test runner: what [describe] and [it] register *)

(** Plain, [.only] and [.skip] variants of [describe] and [it]. *)
Inductive Modifier : Type := Plain | Only | Skip.

(** The registered tree; [B] is the type of test functions. *)
#[warnings="-register-all"]
Inductive Suite (B : Type) : Type :=
| Describe (modifier : Modifier) (name : string) (children : list (Suite B))
| It (modifier : Modifier) (name : string) (body : B).
Arguments Describe {B} modifier name children.
Arguments It {B} modifier name body.

(** Every leaf test with the names of the groups around it, outermost
    first. *)
Fixpoint leaves {B : Type} (s : Suite B) : list (list string * string * B) :=
  match s with
  | It _ name body => [([], name, body)]
  | Describe _ name children =>
      map (fun '(groups, leaf, body) => (name :: groups, leaf, body))
          (flat_map leaves children)
  end.

(** ** Expectations: the [expect(...)] calls of the driver *)

(** An element of the actual-warnings sequence. *)
Inductive ActualWarning : Type :=
| OfInvalidOption (w : InvalidOptionWarning.t)
| OfRule (w : LintWarning.t).

Definition severity_name (s : Severity) : string :=
  match s with
  | SeverityWarning => "warning"
  | SeverityError => "error"
  end.

(** [w[key]], [None] when the property is missing or [undefined]. *)
Definition property (w : ActualWarning) (key : string) : option JsPrim :=
  match w with
  | OfInvalidOption w =>
      match key with
      | "text" => Some (PStr (InvalidOptionWarning.text w))
      | _ => None
      end
  | OfRule w =>
      match key with
      | "line" => Some (PNum (LintWarning.line w))
      | "column" => Some (PNum (LintWarning.column w))
      | "endLine" => PNum <$> LintWarning.endLine w
      | "endColumn" => PNum <$> LintWarning.endColumn w
      | "rule" => Some (PStr (LintWarning.rule w))
      | "severity" => Some (PStr (severity_name (LintWarning.severity w)))
      | "text" => Some (PStr (LintWarning.text w))
      | _ => None
      end
  end.

(** The object literal given to [toMatchObject] on a result entry:
    [{ parseErrors: [] }] or [{ warnings: ..., parseErrors: [] }]. *)
Module ResultPattern.
Record t : Type := mk {
  warnings : option (list LintWarning.t);
  parseErrors : list ParseError.t;
}.
End ResultPattern.

Inductive Expectation : Type :=
| WarningsToEqual (received expected : list LintWarning.t)
| ParseErrorsToEqual (received expected : list ParseError.t)
| InvalidOptionWarningsToEqual (received expected : list InvalidOptionWarning.t)
| ResultToMatchObject (received : option LintResult.t) (expected : ResultPattern.t)
| ToHaveLength (received : list ActualWarning) (expected : nat)
| ToBeDefined (received : option string) (message : string)
| WarningToMatchObject (received : option ActualWarning) (expected : list (string * JsPrim))
| ToBe (received : string) (expected : option string)
| NotToBe (received : string) (expected : string).

(** Subset match of a warning: every property of [expected] is a property of
    [w] with an equal value; properties [expected] lacks are not looked at. *)
Definition matches_warning (w : ActualWarning) (expected : list (string * JsPrim)) : bool :=
  forallb (fun '(key, value) => bool_decide (property w key = Some value)) expected.

(** Subset match of a result entry. A pattern property that is an array
    matches an array of the same length, element by element; the elements are
    records with the same keys on both sides, on which the subset match is
    equality. *)
Definition matches_result (r : LintResult.t) (expected : ResultPattern.t) : bool :=
  match ResultPattern.warnings expected with
  | Some ws => bool_decide (LintResult.warnings r = ws)
  | None => true
  end
  && bool_decide (LintResult.parseErrors r = ResultPattern.parseErrors expected).

(** Whether an expectation is met. *)
Definition holds (e : Expectation) : bool :=
  match e with
  | WarningsToEqual received expected => bool_decide (received = expected)
  | ParseErrorsToEqual received expected => bool_decide (received = expected)
  | InvalidOptionWarningsToEqual received expected => bool_decide (received = expected)
  | ResultToMatchObject (Some r) expected => matches_result r expected
  | ResultToMatchObject None _ => false
  | ToHaveLength received expected => bool_decide (length received = expected)
  | ToBeDefined received _ => bool_decide (is_Some received)
  | WarningToMatchObject (Some w) expected => matches_warning w expected
  | WarningToMatchObject None _ => false
  | ToBe received expected => bool_decide (expected = Some received)
  | NotToBe received expected => bool_decide (received ≠ expected)
  end.

(** ** Test functions *)

(** What ends a test early: a failed expectation, [throw new Error(..)], a
    [TypeError]. *)
Inductive Failure : Type :=
| AssertionError (failed : Expectation)
| Error (message : string)
| TypeError (message : string).

(** What a test function does that can be observed from outside. *)
Inductive Event : Type :=
| Lint (options : StylelintOptions.t)
| Expect (e : Expectation).

(** A test function: from the log so far to the log after it and either the
    failure that ended it or its value. *)
Definition Test (A : Type) : Type :=
  list Event -> list Event * (Failure + A).

#[global] Instance Test_ret : MRet Test :=
  fun A x log => (log, inr x).

#[global] Instance Test_bind : MBind Test :=
  fun A B f m log =>
    match m log with
    | (log', inr x) => f x log'
    | (log', inl e) => (log', inl e)
    end.

Definition throw {A : Type} (e : Failure) : Test A :=
  fun log => (log, inl e).

(** A value, or the exception computing it throws. *)
Definition lift {A : Type} (r : Failure + A) : Test A :=
  fun log => (log, r).

(** [expect(...)...]: logged, and a failure unless it holds. *)
Definition expect (e : Expectation) : Test unit :=
  fun log => (log ++ [Expect e], if holds e then inr () else inl (AssertionError e)).

(** [array.forEach((x, index) => ...)]. *)
Fixpoint forEach {A : Type} (f : A -> nat -> Test unit) (l : list A) (index : nat) : Test unit :=
  match l with
  | [] => mret ()
  | x :: l' => f x index ;; forEach f l' (S index)
  end.

(** The engine invocations of a log, in order. *)
Definition engine_calls (log : list Event) : list StylelintOptions.t :=
  omap (fun ev => match ev with Lint options => Some options | Expect _ => None end) log.

(** The number of engine invocations in a log. *)
Definition invocations (log : list Event) : nat :=
  length (engine_calls log).

(** The message of the [TypeError] that reading a property of [undefined]
    throws. *)
Definition cannot_read (prop : string) : string :=
  "Cannot read properties of undefined (reading '" +:+ prop +:+ "')".

(** [output.results[0].prop], up to the projection [prop]. *)
Definition first_result (output : LinterResult.t) (prop : string) : Failure + LintResult.t :=
  match LinterResult.results output !! 0%nat with
  | Some r => inr r
  | None => inl (TypeError (cannot_read prop))
  end.

(** [getOutputCss] (lines 352-360). *)
Definition getOutputCss (output : LinterResult.t) : Failure + string :=
  match first_result output "_postcssResult" with
  | inl e => inl e
  | inr r =>
      let result := LintResult._postcssResult r in
      match result with
      | Some result =>
          match PostcssResult.root result, PostcssResult.opts result with
          | Some root, Some opts =>
              inr (Root.toString root (ResultOptions.syntax opts))
          | _, _ => inl (TypeError "Invalid result")
          end
      | None => inl (TypeError "Invalid result")
      end
  end.

(** ** The driver (lines 165-350) *)

Section Driver.

(** [util.inspect], Node's rendering of a value for humans. *)
Variable inspect : JsValue -> string.

(** stylelint's [lint]: the result, or the exception it rejects with, of
    the [n]-th invocation of a test on the given options. *)
Variable lint : nat -> StylelintOptions.t -> Failure + LinterResult.t.

(** [await lint(options)]. *)
Definition await_lint (options : StylelintOptions.t) : Test LinterResult.t :=
  fun log => (log ++ [Lint options], lint (invocations log) options).

(** [stylelintConfig] (lines 168-173). *)
Definition stylelintConfig (options : GetTestRuleOptions.t) (schema : TestSchema.t)
  : StylelintConfig.t :=
  StylelintConfig.mk
    (if truthy_plugins (GetTestRuleOptions.plugins options)
     then GetTestRuleOptions.plugins options
     else TestSchema.plugins schema)
    [(TestSchema.ruleName schema, TestSchema.config schema)].

(** [stylelintOptions] (lines 181-186 and 216-221): no [fix] key. *)
Definition stylelintOptions (config : StylelintConfig.t) (schema : TestSchema.t)
    (code : string) : StylelintOptions.t :=
  StylelintOptions.mk code config
    (TestSchema.customSyntax schema) (TestSchema.codeFilename schema) None.

(** The test function of an accept case (lines 180-206). *)
Definition accept_comparisons (config : StylelintConfig.t) (schema : TestSchema.t)
    (testCase : AcceptTestCase) : Test unit :=
  let stylelintOptions := stylelintOptions config schema (TestCase.code testCase) in
  output ← await_lint stylelintOptions;
  r ← lift (first_result output "warnings");
  expect (WarningsToEqual (LintResult.warnings r) []);;
  r ← lift (first_result output "parseErrors");
  expect (ParseErrorsToEqual (LintResult.parseErrors r) []);;
  r ← lift (first_result output "invalidOptionWarnings");
  expect (InvalidOptionWarningsToEqual (LintResult.invalidOptionWarnings r) []);;
  if negb (truthy_bool (TestSchema.fix_ schema)) then mret () else
  outputAfterFix ← await_lint (StylelintOptions.with_fix (Some true) stylelintOptions);
  fixedCode ← lift (getOutputCss outputAfterFix);
  expect (ToBe fixedCode (Some (TestCase.code testCase))).

(** [[...r.invalidOptionWarnings, ...r.warnings]] (lines 225-228), for
    [r] the first result entry. *)
Definition actualWarnings (output : LinterResult.t) : Failure + list ActualWarning :=
  match first_result output "invalidOptionWarnings" with
  | inl e => inl e
  | inr r => inr (map OfInvalidOption (LintResult.invalidOptionWarnings r)
                  ++ map OfRule (LintResult.warnings r))
  end.

(** [testCase.warnings ? testCase.warnings.length : 1] (line 234): an
    array, empty or not, is truthy. *)
Definition expected_length (testCase : RejectTestCase.t) : nat :=
  match RejectTestCase.warnings testCase with
  | Some warnings => length warnings
  | None => 1
  end.

(** [testCase.warnings || [testCase]] (line 237). *)
Definition expected_warnings (testCase : RejectTestCase.t) : list Warning.t :=
  match RejectTestCase.warnings testCase with
  | Some warnings => warnings
  | None => [RejectTestCase.as_Warning testCase]
  end.

(** [expectedWarning] as the object literal builds it (lines 244-250). *)
Definition expectedWarning_literal (warning : Warning.t) : list (string * option JsPrim) :=
  [ ("text", PStr <$> Warning.message warning);
    ("line", PNum <$> Warning.line warning);
    ("column", PNum <$> Warning.column warning);
    ("endLine", PNum <$> Warning.endLine warning);
    ("endColumn", PNum <$> Warning.endColumn warning) ].

(** [expectedWarning] once every entry whose value is [undefined] has
    been deleted (lines 252-256). *)
Definition expectedWarning (warning : Warning.t) : list (string * JsPrim) :=
  omap (fun '(key, value) => pair key <$> value) (expectedWarning_literal warning).

Definition message_required : string :=
  "Expected " +:+ dq +:+ "reject" +:+ dq +:+ " test case to have a "
    +:+ dq +:+ "message" +:+ dq +:+ " property".

(** The body of [warnings.forEach] (lines 239-258). *)
Definition check_warning (actual : list ActualWarning) (warning : Warning.t)
    (index : nat) : Test unit :=
  expect (ToBeDefined (Warning.message warning) message_required);;
  expect (WarningToMatchObject (actual !! index) (expectedWarning warning)).

Definition fixed_required : string :=
  "If using { fix: true } in test schema, all reject cases must have { fixed: .. }".

(** Lines 216-259 of the test function of a reject case: the lint without
    autofix and the expectations on its warnings. *)
Definition reject_lint (config : StylelintConfig.t) (schema : TestSchema.t)
    (testCase : RejectTestCase.t) : Test unit :=
  let stylelintOptions := stylelintOptions config schema (RejectTestCase.code testCase) in
  outputAfterLint ← await_lint stylelintOptions;
  actualWarnings ← lift (actualWarnings outputAfterLint);
  expect (ResultToMatchObject (LinterResult.results outputAfterLint !! 0%nat)
            (ResultPattern.mk None []));;
  expect (ToHaveLength actualWarnings (expected_length testCase));;
  forEach (check_warning actualWarnings) (expected_warnings testCase) 0.

(** Lines 266-294: the fix contract, the autofix pass and the expectations
    on the fixed code. *)
Definition reject_autofix (config : StylelintConfig.t) (schema : TestSchema.t)
    (testCase : RejectTestCase.t) : Test (LinterResult.t * string) :=
  let stylelintOptions := stylelintOptions config schema (RejectTestCase.code testCase) in
  if truthy_bool (TestSchema.fix_ schema)
     && negb (truthy_string (RejectTestCase.fixed testCase))
     && negb (bool_decide (RejectTestCase.fixed testCase = Some ""))
     && negb (truthy_bool (RejectTestCase.unfixable testCase))
  then throw (Error fixed_required) else
  outputAfterFix ← await_lint (StylelintOptions.with_fix (Some true) stylelintOptions);
  fixedCode ← lift (getOutputCss outputAfterFix);
  (if negb (truthy_bool (RejectTestCase.unfixable testCase)) then
     expect (ToBe fixedCode (RejectTestCase.fixed testCase));;
     expect (NotToBe fixedCode (RejectTestCase.code testCase))
   else
     (if truthy_string (RejectTestCase.fixed testCase)
      then expect (ToBe fixedCode (RejectTestCase.fixed testCase))
      else mret ());;
     expect (ToBe fixedCode (Some (RejectTestCase.code testCase))));;
  mret (outputAfterFix, fixedCode).

(** Lines 296-306: the lint of the fixed code. *)
Definition reject_relint (config : StylelintConfig.t) (schema : TestSchema.t)
    (testCase : RejectTestCase.t) (outputAfterFix : LinterResult.t)
    (fixedCode : string) : Test unit :=
  let stylelintOptions := stylelintOptions config schema (RejectTestCase.code testCase) in
  outputAfterLintOnFixedCode ←
    await_lint (StylelintOptions.with_fix (RejectTestCase.unfixable testCase)
                  (StylelintOptions.with_code fixedCode stylelintOptions));
  r ← lift (first_result outputAfterFix "warnings");
  expect (ResultToMatchObject (LinterResult.results outputAfterLintOnFixedCode !! 0%nat)
            (ResultPattern.mk (Some (LintResult.warnings r)) [])).

(** Lines 266-306. *)
Definition reject_fix (config : StylelintConfig.t) (schema : TestSchema.t)
    (testCase : RejectTestCase.t) : Test unit :=
  '(outputAfterFix, fixedCode) ← reject_autofix config schema testCase;
  reject_relint config schema testCase outputAfterFix fixedCode.

(** The test function of a reject case (lines 215-307). *)
Definition reject_comparisons (config : StylelintConfig.t) (schema : TestSchema.t)
    (testCase : RejectTestCase.t) : Test unit :=
  reject_lint config schema testCase;;
  if negb (truthy_bool (TestSchema.fix_ schema)) then mret () else
  reject_fix config schema testCase.

(** [testGroup] (lines 327-331). *)
Definition testGroup (schema : TestSchema.t) : Modifier :=
  if truthy_bool (TestSchema.only schema) then Only
  else if truthy_bool (TestSchema.skip schema) then Skip
  else Plain.

(** [spec] (line 336). *)
Definition spec (testCase : TestCase.t) : Modifier :=
  if truthy_bool (TestCase.only testCase) then Only
  else if truthy_bool (TestCase.skip testCase) then Skip
  else Plain.

(** What one element of [cases] registers (lines 335-346). *)
Definition setupTestCase {T B : Type} `{!ExtendsTestCase T}
    (schema : TestSchema.t) (comparisons : T -> B) (entry : Entry T) : list (Suite B) :=
  match entry with
  | Case testCase =>
      [ Describe Plain (inspect (TestSchema.config schema))
          [ Describe Plain (inspect (JsStr (TestCase.code (upcast testCase))))
              [ It (spec (upcast testCase))
                  (or_string (TestCase.description (upcast testCase)) "no description")
                  (comparisons testCase) ] ] ]
  | Hole _ => []
  end.

(** [setupTestCases] (lines 320-350). *)
Definition setupTestCases {T B : Type} `{!ExtendsTestCase T}
    (name : string) (cases : option (list (Entry T))) (schema : TestSchema.t)
    (comparisons : T -> B) : list (Suite B) :=
  match cases with
  | Some cases =>
      if negb (length cases =? 0)%nat then
        [ Describe (testGroup schema) name
            (flat_map (setupTestCase schema comparisons) cases) ]
      else []
  | None => []
  end.

(** [getTestRule(options)(schema)] (lines 165-312). *)
Definition getTestRule (options : GetTestRuleOptions.t) (schema : TestSchema.t)
  : Suite (Test unit) :=
  let stylelintConfig := stylelintConfig options schema in
  Describe Plain (TestSchema.ruleName schema)
    (setupTestCases "accept" (TestSchema.accept schema) schema
       (accept_comparisons stylelintConfig schema)
     ++ setupTestCases "reject" (TestSchema.reject schema) schema
          (reject_comparisons stylelintConfig schema)).

End Driver.

(** ** Sample collaborators and schemas *)

Module Sample.

(** A rendering that agrees with [util.inspect] on [undefined], [null],
    booleans and strings free of quotes, backslashes and control
    characters; other values get a placeholder. *)
Definition inspect (v : JsValue) : string :=
  match v with
  | JsUndefined => "undefined"
  | JsNull => "null"
  | JsBool true => "true"
  | JsBool false => "false"
  | JsStr s => "'" +:+ s +:+ "'"
  | JsNum _ => "[Number]"
  | JsArr _ => "[Array]"
  | JsObj _ => "[Object]"
  end.

Definition css (text : string) : option PostcssResult.t :=
  Some (PostcssResult.mk (Some (Root.mk (fun _ => text)))
          (Some (ResultOptions.mk None))).

Definition unexpected_b : LintWarning.t :=
  LintWarning.mk 1 1 (Some 1%Z) (Some 2%Z) "no-b" SeverityError "unexpected b".

(** An engine for a rule that rejects sources starting with [b] and has
    no fix for them: the source comes back unchanged. *)
Definition lint (n : nat) (options : StylelintOptions.t) : Failure + LinterResult.t :=
  let code := StylelintOptions.code options in
  inr (LinterResult.mk
         [ LintResult.mk (if String.prefix "b" code then [unexpected_b] else [])
             [] [] (css code) ]).

Definition options : GetTestRuleOptions.t :=
  GetTestRuleOptions.mk (Some (PluginPaths ["./"])).

Definition accept_a : AcceptTestCase :=
  TestCase.mk "a{}" None None None.

Definition reject_b : RejectTestCase.t :=
  RejectTestCase.mk "b{}" (Some "starts with b") None None
    (Some "unexpected b") (Some 1%Z) (Some 1%Z) None None
    None None None.

Definition schema : TestSchema.t :=
  TestSchema.mk "no-b" (JsBool true)
    (Some [Case accept_a]) (Some [Case reject_b])
    None None None None None None.

Definition schema_own_plugins : TestSchema.t :=
  TestSchema.mk "no-b" (JsBool true)
    (Some [Case accept_a]) (Some [Case reject_b])
    None (Some (PluginPath "./plugin.js")) None None None None.

Definition accept_blank : AcceptTestCase :=
  TestCase.mk "a{}" (Some "") None None.

Definition schema_blank : TestSchema.t :=
  TestSchema.mk "no-b" (JsBool true)
    (Some [Case accept_blank]) None
    None None None None None None.

Definition config : StylelintConfig.t :=
  stylelintConfig options schema.

(** The same schema with autofix turned on. *)
Definition schema_fix : TestSchema.t :=
  TestSchema.mk "no-b" (JsBool true)
    (Some [Case accept_a]) (Some [Case reject_b])
    (Some true) None None None None None.

Definition reject_b_unfixable : RejectTestCase.t :=
  RejectTestCase.mk "b{}" None None None
    (Some "unexpected b") None None None None
    None (Some true) None.

(** An unfixable case that also supplies [fixed], as the empty string. *)
Definition reject_b_fixed_empty : RejectTestCase.t :=
  RejectTestCase.mk "b{}" None None None
    (Some "unexpected b") None None None None
    (Some "") (Some true) None.

(** What the sample engine returns for the source [code]. *)
Definition output_of (code : string) : LinterResult.t :=
  LinterResult.mk
    [ LintResult.mk (if String.prefix "b" code then [unexpected_b] else [])
        [] [] (css code) ].

Definition result_of (code : string) : LintResult.t :=
  LintResult.mk (if String.prefix "b" code then [unexpected_b] else [])
    [] [] (css code).

Definition schema_fixed_empty : TestSchema.t :=
  TestSchema.mk "no-b" (JsBool true)
    None (Some [Case reject_b_fixed_empty])
    (Some true) None None None None None.

Definition schema_unfixable : TestSchema.t :=
  TestSchema.mk "no-b" (JsBool true)
    None (Some [Case reject_b_unfixable])
    (Some true) None None None None None.

(** An engine that rejects every invocation. *)
Definition lint_down (n : nat) (options : StylelintOptions.t) : Failure + LinterResult.t :=
  inl (Error "engine unavailable").

(** An engine whose results hold no entry. *)
Definition lint_nothing (n : nat) (options : StylelintOptions.t) : Failure + LinterResult.t :=
  inr (LinterResult.mk []).

(** An engine for the same rule with a fix: under autofix a leading [b]
    becomes an [a] and nothing is left to report. *)
Definition lint_fixing (n : nat) (options : StylelintOptions.t) : Failure + LinterResult.t :=
  let code := StylelintOptions.code options in
  match truthy_bool (StylelintOptions.fix_ options), code with
  | true, String _ rest =>
      if String.prefix "b" code
      then inr (LinterResult.mk [LintResult.mk [] [] [] (css ("a" +:+ rest))])
      else inr (output_of code)
  | _, _ => inr (output_of code)
  end.

Definition reject_b_fixable : RejectTestCase.t :=
  RejectTestCase.mk "b{}" None None None
    (Some "unexpected b") (Some 1%Z) (Some 1%Z) None None
    (Some "a{}") None None.

Definition schema_fixable : TestSchema.t :=
  TestSchema.mk "no-b" (JsBool true)
    None (Some [Case reject_b_fixable])
    (Some true) None None None None None.

(** A case that lists its expected warnings. *)
Definition reject_b_listed : RejectTestCase.t :=
  RejectTestCase.mk "b{}" None None None
    None None None None None
    None None (Some [Warning.mk (Some "unexpected b") (Some 1%Z) (Some 1%Z) None None]).

(** A case that expects no warning at all. *)
Definition reject_nothing : RejectTestCase.t :=
  RejectTestCase.mk "a{}" None None None
    (Some "never compared") None None None None
    None None (Some []).

(** An unfixable case that also supplies a non-empty [fixed]. *)
Definition reject_b_unfixable_fixed : RejectTestCase.t :=
  RejectTestCase.mk "b{}" None None None
    (Some "unexpected b") None None None None
    (Some "b{}") (Some true) None.

End Sample.

(** ** Vocabulary of the properties *)

(** [t] keeps [P]: when [P] holds of the log before [t], it holds of the log
    after. *)
Definition keeps {A : Type} (P : list Event -> Prop) (t : Test A) : Prop :=
  forall log, P log -> P (t log).1.

(** Every engine invocation of the log was made with configuration [c]. *)
Definition configured (c : StylelintConfig.t) (log : list Event) : Prop :=
  forall options, Lint options ∈ log -> StylelintOptions.config options = c.

(** [log] is [log0] with further events after it. *)
Definition grows_from (log0 log : list Event) : Prop :=
  exists ext, log = log0 ++ ext.

(** The case objects of a cases array: its truthy elements, in order. *)
Definition present {T : Type} (cases : list (Entry T)) : list T :=
  omap (fun entry => match entry with Case c => Some c | Hole _ => None end) cases.

(** [a ?? b] on optional values. *)
Definition nullish_or {A : Type} (a b : option A) : option A :=
  match a with
  | Some _ => a
  | None => b
  end.

(** The expectations of a log on the fixed source text. *)
Definition fixed_text_expectations (log : list Event) : list Expectation :=
  omap (fun ev =>
          match ev with
          | Expect (ToBe received expected) => Some (ToBe received expected)
          | Expect (NotToBe received expected) => Some (NotToBe received expected)
          | _ => None
          end) log.

(** The groups around the leaf test of a case of the group [name], outermost
    first, had the group of the configuration been registered inside the
    group of the source text. *)
Definition groups_code_then_config (inspect : JsValue -> string) (schema : TestSchema.t)
    (name : string) (code : string) : list string :=
  [ TestSchema.ruleName schema; name; inspect (JsStr code);
    inspect (TestSchema.config schema) ].

(** The actual warning [a] has every property the expected warning [w]
    declares, with the declared value; nothing is asked of the others. *)
Definition agrees (a : ActualWarning) (w : Warning.t) : Prop :=
  (forall s, Warning.message w = Some s -> property a "text" = Some (PStr s))
  /\ (forall n, Warning.line w = Some n -> property a "line" = Some (PNum n))
  /\ (forall n, Warning.column w = Some n -> property a "column" = Some (PNum n))
  /\ (forall n, Warning.endLine w = Some n -> property a "endLine" = Some (PNum n))
  /\ (forall n, Warning.endColumn w = Some n -> property a "endColumn" = Some (PNum n)).

(** What the driver asks for the expected warning [w] at index [i]. *)
Definition checked (actual : list ActualWarning) (i : nat) (w : Warning.t) : Prop :=
  is_Some (Warning.message w) /\ exists a, actual !! i = Some a /\ agrees a w.

(** For every leaf test, the variants of the groups around it, outermost
    first, and its own variant. *)
Fixpoint modifiers {B : Type} (s : Suite B) : list (list Modifier * Modifier) :=
  match s with
  | It modifier _ _ => [([], modifier)]
  | Describe modifier _ children =>
      map (fun '(groups, leaf) => (modifier :: groups, leaf))
          (flat_map modifiers children)
  end.

(** The names of the groups registered directly inside a group. *)
Definition group_names {B : Type} (s : Suite B) : list string :=
  match s with
  | Describe _ _ children =>
      omap (fun child =>
              match child with
              | Describe _ name _ => Some name
              | It _ _ _ => None
              end) children
  | It _ _ _ => []
  end.

(** The variant chosen from an [only] and a [skip] flag. *)
Definition variant (only skip : option bool) : Modifier :=
  match only, skip with
  | Some true, _ => Only
  | _, Some true => Skip
  | _, _ => Plain
  end.

(** ** Properties *)

(** *** How the monad's operations treat an invariant of the log *)

Lemma keeps_ret {A : Type} (P : list Event -> Prop) (x : A) : keeps P (mret x).
Proof. intros log H. exact H. Qed.

Lemma keeps_throw {A : Type} (P : list Event -> Prop) (e : Failure) :
  keeps P (throw (A := A) e).
Proof. intros log H. exact H. Qed.

Lemma keeps_lift {A : Type} (P : list Event -> Prop) (r : Failure + A) :
  keeps P (lift r).
Proof. intros log H. exact H. Qed.

Lemma keeps_bind {A B : Type} (P : list Event -> Prop) (m : Test A) (f : A -> Test B) :
  keeps P m -> (forall x, keeps P (f x)) -> keeps P (m ≫= f).
Proof.
  intros Hm Hf log H. unfold mbind, Test_bind.
  specialize (Hm log H). destruct (m log) as [log' [e | x]]; simpl in *.
  - exact Hm.
  - apply Hf, Hm.
Qed.

Lemma keeps_forEach {A : Type} (P : list Event -> Prop) (f : A -> nat -> Test unit) :
  (forall x i, keeps P (f x i)) -> forall l i, keeps P (forEach f l i).
Proof.
  intros Hf l. induction l as [| x l IH]; intros i; simpl.
  - apply keeps_ret.
  - apply keeps_bind; [apply Hf | intros _; apply IH].
Qed.

Lemma keeps_expect (P : list Event -> Prop) (e : Expectation) :
  (forall log, P log -> P (log ++ [Expect e])) -> keeps P (expect e).
Proof. intros H log Hlog. apply H, Hlog. Qed.

Lemma keeps_await_lint (P : list Event -> Prop) lint (o : StylelintOptions.t) :
  (forall log, P log -> P (log ++ [Lint o])) -> keeps P (await_lint lint o).
Proof. intros H log Hlog. apply H, Hlog. Qed.

(** Walks through a test function, leaving the goals about single events
    to [tac]. *)
Ltac keeps_by tac :=
  repeat first
    [ apply keeps_ret | apply keeps_throw | apply keeps_lift
    | apply keeps_expect; tac
    | apply keeps_await_lint; tac
    | apply keeps_forEach; intros
    | apply keeps_bind; [| intros]
    | match goal with |- keeps _ (if ?b then _ else _) => destruct b end
    | match goal with |- keeps _ (let '(_, _) := ?p in _) => destruct p end ].

Ltac unfold_tests :=
  unfold accept_comparisons, reject_comparisons, reject_lint, reject_fix,
    reject_autofix, reject_relint, check_warning.

Lemma configured_snoc_expect c e log :
  configured c log -> configured c (log ++ [Expect e]).
Proof.
  intros H options. rewrite elem_of_app, list_elem_of_singleton.
  intros [Hin | Heq]; [exact (H _ Hin) | discriminate Heq].
Qed.

Lemma configured_snoc_lint c o log :
  StylelintOptions.config o = c -> configured c log -> configured c (log ++ [Lint o]).
Proof.
  intros Ho H options. rewrite elem_of_app, list_elem_of_singleton.
  intros [Hin | Heq]; [exact (H _ Hin) | congruence].
Qed.

Ltac configured_event :=
  intros;
  first [ apply configured_snoc_expect; assumption
        | apply configured_snoc_lint; [reflexivity | assumption] ].

Lemma configured_accept lint c schema testCase :
  keeps (configured c) (accept_comparisons lint c schema testCase).
Proof. unfold_tests. keeps_by configured_event. Qed.

Lemma configured_reject lint c schema testCase :
  keeps (configured c) (reject_comparisons lint c schema testCase).
Proof. unfold_tests. keeps_by configured_event. Qed.

Lemma grows_from_snoc log0 ev log :
  grows_from log0 log -> grows_from log0 (log ++ [ev]).
Proof. intros [ext ->]. exists (ext ++ [ev]). symmetry. apply app_assoc. Qed.

Lemma grows_from_refl log : grows_from log log.
Proof. exists []. symmetry. apply app_nil_r. Qed.

Ltac grows_event := intros; apply grows_from_snoc; assumption.

(** The expectations on the expected warnings invoke no engine. *)
Lemma forEach_check_warning_grows actual ws i log :
  grows_from log (forEach (check_warning actual) ws i log).1.
Proof.
  assert (H : keeps (grows_from log) (forEach (check_warning actual) ws i)).
  { unfold_tests. keeps_by grows_event. }
  apply H, grows_from_refl.
Qed.

(** *** The expectations on the expected warnings *)

Lemma matches_warning_agrees a w :
  matches_warning a (expectedWarning w) = true <-> agrees a w.
Proof.
  unfold agrees, matches_warning, expectedWarning, expectedWarning_literal.
  destruct w as [m l c el ec]. destruct m, l, c, el, ec.
  all: cbn [omap fmap option_fmap option_map mbind option_bind forallb Warning.message Warning.line Warning.column Warning.endLine Warning.endColumn list_omap].
  all: rewrite ?andb_true_iff, ?bool_decide_eq_true.
  all: split;
    [ intros H; repeat split; intros ? Heq; try discriminate Heq;
      injection Heq as <-; tauto
    | intros (H1 & H2 & H3 & H4 & H5); repeat split; eauto ].
Qed.

Lemma check_warning_run actual w i log :
  check_warning actual w i log
  = match Warning.message w with
    | None =>
        (log ++ [Expect (ToBeDefined None message_required)],
         inl (AssertionError (ToBeDefined None message_required)))
    | Some m =>
        let e := WarningToMatchObject (actual !! i) (expectedWarning w) in
        (log ++ [Expect (ToBeDefined (Some m) message_required); Expect e],
         if holds e then inr () else inl (AssertionError e))
    end.
Proof.
  unfold check_warning, mbind, Test_bind, expect.
  destruct (Warning.message w) as [m |]; cbn; [| reflexivity].
  rewrite <- app_assoc. reflexivity.
Qed.

Lemma check_warning_pass actual w i log :
  (exists log', check_warning actual w i log = (log', inr ())) <-> checked actual i w.
Proof.
  rewrite check_warning_run. unfold checked.
  destruct (Warning.message w) as [m |] eqn:Hm; cbv zeta.
  - destruct (actual !! i) as [a |]; cbn [holds].
    + destruct (matches_warning a (expectedWarning w)) eqn:Hmatch.
      * apply matches_warning_agrees in Hmatch. split.
        -- intros _. split; [eexists; reflexivity |]. exists a. split; [reflexivity | exact Hmatch].
        -- intros _. eexists. reflexivity.
      * split; [intros [log' H]; discriminate H |].
        intros (_ & a' & [= <-] & Hag). apply matches_warning_agrees in Hag. congruence.
    + split; [intros [log' H]; discriminate H |]. intros (_ & a & H & _). discriminate H.
  - split; [intros [log' H]; discriminate H |]. intros [[m H] _]. discriminate H.
Qed.

Lemma forEach_pass actual ws : forall i log,
  (exists log', forEach (check_warning actual) ws i log = (log', inr ()))
  <-> (forall k w, ws !! k = Some w -> checked actual (i + k) w).
Proof.
  induction ws as [| w ws IH]; intros i log; cbn [forEach].
  - split; [intros _ k w H; discriminate H | intros _; eexists; reflexivity].
  - unfold mbind, Test_bind. split.
    + intros [log' H].
      destruct (check_warning actual w i log) as [log1 [e | []]] eqn:Hw; [discriminate H |].
      intros [| k] w' Hk; cbn in Hk.
      * injection Hk as <-. rewrite Nat.add_0_r. apply (check_warning_pass actual w i log). eauto.
      * replace (i + S k) with (S i + k) by lia.
        apply (IH (S i) log1); eauto.
    + intros H.
      destruct (proj2 (check_warning_pass actual w i log)) as [log1 Hw].
      { specialize (H 0 w eq_refl). rewrite Nat.add_0_r in H. exact H. }
      rewrite Hw. apply IH. intros k w' Hk.
      replace (S i + k) with (i + S k) by lia. apply H. exact Hk.
Qed.

Lemma forEach_missing_message actual ws : forall i log k w,
  ws !! k = Some w -> Warning.message w = None ->
  (forall j w', j < k -> ws !! j = Some w' -> checked actual (i + j) w') ->
  exists log',
    forEach (check_warning actual) ws i log
    = (log', inl (AssertionError (ToBeDefined None message_required))).
Proof.
  induction ws as [| w0 ws IH]; intros i log k w Hk Hm Hbefore; [discriminate Hk |].
  cbn [forEach]. unfold mbind, Test_bind. destruct k as [| k]; cbn in Hk.
  - injection Hk as ->. rewrite check_warning_run, Hm. eauto.
  - destruct (proj2 (check_warning_pass actual w0 i log)) as [log1 Hw].
    { specialize (Hbefore 0 w0 ltac:(lia) eq_refl). rewrite Nat.add_0_r in Hbefore.
      exact Hbefore. }
    rewrite Hw. apply (IH (S i) log1 k w Hk Hm).
    intros j w' Hj Hw'. replace (S i + j) with (i + S j) by lia.
    apply Hbefore; [lia | exact Hw'].
Qed.

(** *** The lint of a reject case *)

Lemma reject_lint_run lint c schema tc output r :
  lint 0%nat (stylelintOptions c schema (RejectTestCase.code tc)) = inr output ->
  LinterResult.results output !! 0%nat = Some r ->
  reject_lint lint c schema tc []
  = let options := stylelintOptions c schema (RejectTestCase.code tc) in
    let actual := map OfInvalidOption (LintResult.invalidOptionWarnings r)
                  ++ map OfRule (LintResult.warnings r) in
    let e1 := ResultToMatchObject (Some r) (ResultPattern.mk None []) in
    let e2 := ToHaveLength actual (expected_length tc) in
    if bool_decide (LintResult.parseErrors r = []) then
      if bool_decide (length actual = expected_length tc) then
        forEach (check_warning actual) (expected_warnings tc) 0
                [Lint options; Expect e1; Expect e2]
      else ([Lint options; Expect e1; Expect e2], inl (AssertionError e2))
    else ([Lint options; Expect e1], inl (AssertionError e1)).
Proof.
  intros Hlint Hr.
  unfold reject_lint, mbind, Test_bind, await_lint, lift, expect, actualWarnings, first_result.
  cbn [app]. change (invocations []) with 0%nat. rewrite Hlint, Hr. cbn [holds matches_result ResultPattern.warnings ResultPattern.parseErrors andb].
  cbv zeta. repeat case_bool_decide; try reflexivity; contradiction.
Qed.

Lemma reject_comparisons_run lint c schema tc log :
  reject_comparisons lint c schema tc log
  = match reject_lint lint c schema tc log with
    | (log', inr _) =>
        if truthy_bool (TestSchema.fix_ schema)
        then reject_fix lint c schema tc log'
        else (log', inr ())
    | (log', inl e) => (log', inl e)
    end.
Proof.
  unfold reject_comparisons, mbind, Test_bind.
  destruct (reject_lint lint c schema tc log) as [log' [e | []]]; [reflexivity |].
  destruct (truthy_bool (TestSchema.fix_ schema)); reflexivity.
Qed.

Lemma reject_fix_grows lint c schema tc log :
  grows_from log (reject_fix lint c schema tc log).1.
Proof.
  assert (H : keeps (grows_from log) (reject_fix lint c schema tc)).
  { unfold_tests. keeps_by grows_event. }
  apply H, grows_from_refl.
Qed.

Lemma grows_from_trans log0 log1 log2 :
  grows_from log0 log1 -> grows_from log1 log2 -> grows_from log0 log2.
Proof. intros [e1 ->] [e2 ->]. exists (e1 ++ e2). symmetry. apply app_assoc. Qed.

Section RejectLint.

Context (lint : nat -> StylelintOptions.t -> Failure + LinterResult.t)
  (c : StylelintConfig.t) (schema : TestSchema.t) (tc : RejectTestCase.t)
  (output : LinterResult.t) (r : LintResult.t).

Let options := stylelintOptions c schema (RejectTestCase.code tc).
Let actual := map OfInvalidOption (LintResult.invalidOptionWarnings r)
              ++ map OfRule (LintResult.warnings r).
Let no_parse_errors := ResultToMatchObject (Some r) (ResultPattern.mk None []).
Let has_count := ToHaveLength actual (expected_length tc).

Hypothesis Hlint : lint 0%nat options = inr output.
Hypothesis Hr : LinterResult.results output !! 0%nat = Some r.

Lemma reject_lint_parse_errors :
  LintResult.parseErrors r <> [] ->
  reject_lint lint c schema tc []
  = ([Lint options; Expect no_parse_errors], inl (AssertionError no_parse_errors)).
Proof.
  intros H. rewrite (reject_lint_run _ _ _ _ _ _ Hlint Hr). cbv zeta.
  case_bool_decide; [contradiction | reflexivity].
Qed.

Lemma reject_lint_count :
  LintResult.parseErrors r = [] -> length actual <> expected_length tc ->
  reject_lint lint c schema tc []
  = ([Lint options; Expect no_parse_errors; Expect has_count],
     inl (AssertionError has_count)).
Proof.
  intros H1 H2. rewrite (reject_lint_run _ _ _ _ _ _ Hlint Hr). cbv zeta.
  case_bool_decide; [| contradiction]. case_bool_decide; [contradiction | reflexivity].
Qed.

Lemma reject_lint_loop :
  LintResult.parseErrors r = [] -> length actual = expected_length tc ->
  reject_lint lint c schema tc []
  = forEach (check_warning actual) (expected_warnings tc) 0
      [Lint options; Expect no_parse_errors; Expect has_count].
Proof.
  intros H1 H2. rewrite (reject_lint_run _ _ _ _ _ _ Hlint Hr). cbv zeta.
  case_bool_decide; [| contradiction]. case_bool_decide; [reflexivity | contradiction].
Qed.

End RejectLint.

Lemma reject_comparisons_grows lint c schema tc log :
  grows_from (reject_lint lint c schema tc log).1 (reject_comparisons lint c schema tc log).1.
Proof.
  rewrite reject_comparisons_run.
  destruct (reject_lint lint c schema tc log) as [log' [e | []]]; [apply grows_from_refl |].
  destruct (truthy_bool _); [apply reject_fix_grows | apply grows_from_refl].
Qed.

Lemma reject_comparisons_fails lint c schema tc log log' e :
  reject_lint lint c schema tc log = (log', inl e) ->
  reject_comparisons lint c schema tc log = (log', inl e).
Proof. intros H. rewrite reject_comparisons_run, H. reflexivity. Qed.

Lemma reject_comparisons_passes lint c schema tc log :
  (reject_comparisons lint c schema tc log).2 = inr () ->
  (reject_lint lint c schema tc log).2 = inr ().
Proof.
  rewrite reject_comparisons_run.
  destruct (reject_lint lint c schema tc log) as [log' [e | []]]; [intros H; exact H | reflexivity].
Qed.

Lemma expected_length_warnings tc :
  expected_length tc = length (expected_warnings tc).
Proof. unfold expected_length, expected_warnings. destruct (RejectTestCase.warnings tc); reflexivity. Qed.

Lemma engine_calls_snoc_expect log e :
  engine_calls (log ++ [Expect e]) = engine_calls log.
Proof. unfold engine_calls. rewrite omap_app. simpl. apply app_nil_r. Qed.

Lemma engine_calls_snoc_lint log o :
  engine_calls (log ++ [Lint o]) = engine_calls log ++ [o].
Proof. unfold engine_calls. rewrite omap_app. reflexivity. Qed.

Ltac calls_event :=
  let H := fresh in
  intros ? H; cbn beta in *; rewrite engine_calls_snoc_expect; exact H.

Lemma reject_lint_engine_calls lint c schema tc :
  engine_calls (reject_lint lint c schema tc []).1
  = [stylelintOptions c schema (RejectTestCase.code tc)].
Proof.
  unfold reject_lint. unfold mbind at 1. unfold Test_bind, await_lint. cbn [app].
  destruct (lint _ _) as [e | output]; [reflexivity |].
  match goal with |- engine_calls (?k ?l).1 = ?os =>
    assert (H : keeps (fun log => engine_calls log = os) k)
  end.
  { unfold_tests. keeps_by calls_event. }
  apply H. reflexivity.
Qed.

(** *** The autofix pass of a reject case *)

Lemma reject_autofix_success lint c schema tc log log' outputAfterFix fixedCode :
  reject_autofix lint c schema tc log = (log', inr (outputAfterFix, fixedCode)) ->
  let fix_options :=
    StylelintOptions.with_fix (Some true)
      (stylelintOptions c schema (RejectTestCase.code tc)) in
  lint (invocations log) fix_options = inr outputAfterFix
  /\ getOutputCss outputAfterFix = inr fixedCode
  /\ engine_calls log' = engine_calls log ++ [fix_options].
Proof.
  unfold reject_autofix, mbind, Test_bind, await_lint, lift, expect, throw, mret, Test_ret.
  intros H. cbv zeta.
  repeat (case_match; simplify_eq); repeat split; try assumption.
  all: rewrite ?engine_calls_snoc_expect, ?engine_calls_snoc_lint; reflexivity.
Qed.

(** *** The registered tree *)

Lemma flat_map_setupTestCase_present {T B : Type} `{!ExtendsTestCase T}
    inspect schema (comparisons : T -> B) (cases : list (Entry T)) :
  flat_map (setupTestCase inspect schema comparisons) cases
  = flat_map (fun c => setupTestCase inspect schema comparisons (Case c)) (present cases).
Proof.
  induction cases as [| [v | c] cases IH]; simpl.
  - reflexivity.
  - exact IH.
  - f_equal. exact IH.
Qed.

Lemma leaves_setupTestCases {T B : Type} `{!ExtendsTestCase T}
    inspect name (cases : option (list (Entry T))) schema (comparisons : T -> B) :
  flat_map leaves (setupTestCases inspect name cases schema comparisons)
  = map (fun c =>
           ([ name; inspect (TestSchema.config schema);
              inspect (JsStr (TestCase.code (upcast c))) ],
            or_string (TestCase.description (upcast c)) "no description",
            comparisons c))
        (from_option present [] cases).
Proof.
  destruct cases as [cases |]; [| reflexivity].
  unfold setupTestCases. destruct cases as [| entry cases]; [reflexivity |].
  rewrite flat_map_setupTestCase_present. cbn [from_option].
  generalize (present (entry :: cases)). intros l.
  cbn [length Nat.eqb negb flat_map leaves from_option]. rewrite app_nil_r.
  induction l as [| c l IH]; [reflexivity |].
  simpl. f_equal. exact IH.
Qed.

Lemma leaves_getTestRule inspect lint options schema :
  leaves (getTestRule inspect lint options schema)
  = map (fun c =>
           ([ TestSchema.ruleName schema; "accept"; inspect (TestSchema.config schema);
              inspect (JsStr (TestCase.code c)) ],
            or_string (TestCase.description c) "no description",
            accept_comparisons lint (stylelintConfig options schema) schema c))
        (from_option present [] (TestSchema.accept schema))
    ++ map (fun c =>
           ([ TestSchema.ruleName schema; "reject"; inspect (TestSchema.config schema);
              inspect (JsStr (RejectTestCase.code c)) ],
            or_string (RejectTestCase.description c) "no description",
            reject_comparisons lint (stylelintConfig options schema) schema c))
        (from_option present [] (TestSchema.reject schema)).
Proof.
  unfold getTestRule. cbn [leaves].
  rewrite flat_map_app, !leaves_setupTestCases, map_app, !map_map.
  reflexivity.
Qed.

(** *** C1: the engine configuration *)

(** C1, as the code has it: the engine configuration takes the factory's
    plugins when they are truthy and the schema's own plugins otherwise
    ([options.plugins || schema.plugins]); its rules map the rule name to the
    schema's config and nothing else; and every engine invocation of every
    registered test, accept or reject, is made with this configuration. *)
Theorem engine_configuration inspect lint options schema :
  let c := stylelintConfig options schema in
  StylelintConfig.plugins c
  = (if truthy_plugins (GetTestRuleOptions.plugins options)
     then GetTestRuleOptions.plugins options
     else TestSchema.plugins schema)
  /\ StylelintConfig.rules c = [(TestSchema.ruleName schema, TestSchema.config schema)]
  /\ forall groups name body,
       (groups, name, body) ∈ leaves (getTestRule inspect lint options schema) ->
       forall o, Lint o ∈ (body []).1 -> StylelintOptions.config o = c.
Proof.
  intros c. split; [reflexivity |]. split; [reflexivity |].
  intros groups name body Hin.
  assert (Hkeeps : keeps (configured c) body).
  { rewrite leaves_getTestRule in Hin.
    apply elem_of_app in Hin as [Hin | Hin];
      apply list_elem_of_fmap in Hin as (testCase & Heq & _);
      injection Heq as _ _ ->.
    - apply configured_accept.
    - apply configured_reject. }
  apply (Hkeeps []). intros o Ho. apply elem_of_nil in Ho. destruct Ho.
Qed.

(** C1 as stated fails: with plugins given to the factory and to the
    schema, the schema's own plugins are not the ones configured. *)
Lemma schema_plugins_do_not_win :
  StylelintConfig.plugins (stylelintConfig Sample.options Sample.schema_own_plugins)
  <> nullish_or (TestSchema.plugins Sample.schema_own_plugins)
                (GetTestRuleOptions.plugins Sample.options).
Proof. vm_compute. discriminate. Qed.

(** *** C2: the fix contract *)

(** C2, as the code has it: under a schema whose autofix flag is set, a
    reject case with neither [fixed] nor [unfixable] makes the test throw the
    configuration error once the lint without autofix and the expectations on
    its warnings have passed; the engine has then been invoked once, without
    autofix, and is not invoked again. *)
Theorem fix_contract lint c schema tc log :
  truthy_bool (TestSchema.fix_ schema) = true ->
  RejectTestCase.fixed tc = None ->
  truthy_bool (RejectTestCase.unfixable tc) = false ->
  reject_lint lint c schema tc [] = (log, inr ()) ->
  reject_comparisons lint c schema tc [] = (log, inl (Error fixed_required))
  /\ engine_calls log = [stylelintOptions c schema (RejectTestCase.code tc)].
Proof.
  intros Hfix Hfixed Hunfixable Hlint. split.
  - rewrite reject_comparisons_run, Hlint, Hfix.
    unfold reject_fix, reject_autofix, mbind, Test_bind.
    rewrite Hfix, Hfixed, Hunfixable. reflexivity.
  - pose proof (reject_lint_engine_calls lint c schema tc) as H.
    rewrite Hlint in H. exact H.
Qed.

(** C2 as stated fails: the configuration error is thrown after the engine
    has been invoked on the case. *)
Lemma config_error_follows_the_lint :
  (reject_comparisons Sample.lint Sample.config Sample.schema_fix Sample.reject_b []).2
  = inl (Error fixed_required)
  /\ engine_calls
       (reject_comparisons Sample.lint Sample.config Sample.schema_fix Sample.reject_b []).1
     = [stylelintOptions Sample.config Sample.schema_fix "b{}"].
Proof. split; vm_compute; reflexivity. Qed.

(** [fix_contract] at the sample schema with autofix and a case without
    [fixed]. *)
Lemma fix_contract_witness :
  truthy_bool (TestSchema.fix_ Sample.schema_fix) = true
  /\ RejectTestCase.fixed Sample.reject_b = None
  /\ truthy_bool (RejectTestCase.unfixable Sample.reject_b) = false
  /\ (reject_lint Sample.lint Sample.config Sample.schema_fix Sample.reject_b []).2 = inr ()
  /\ (reject_comparisons Sample.lint Sample.config Sample.schema_fix Sample.reject_b []).2
     = inl (Error fixed_required).
Proof.
  do 4 (split; [reflexivity |]).
  pose proof (fix_contract Sample.lint Sample.config Sample.schema_fix Sample.reject_b
                (reject_lint Sample.lint Sample.config Sample.schema_fix Sample.reject_b []).1
                eq_refl eq_refl eq_refl ltac:(vm_compute; reflexivity)) as [H _].
  rewrite H. reflexivity.
Defined.

(** *** C3: the names of the registered groups and tests *)

(** C3, as the code has it: under the group of the rule and the group
    [accept] or [reject], the leaf test of a case is inside the group labelled
    with the rendering of its source text, which is inside the group labelled
    with the rendering of the rule configuration; the leaf test is named by
    the description when that is a non-empty string and by
    [no description] otherwise. Only case objects have a leaf test. *)
Theorem registered_names inspect lint options schema :
  map fst (leaves (getTestRule inspect lint options schema))
  = map (fun c =>
           ([ TestSchema.ruleName schema; "accept";
              inspect (TestSchema.config schema); inspect (JsStr (TestCase.code c)) ],
            match TestCase.description c with
            | Some "" | None => "no description"
            | Some d => d
            end))
        (from_option present [] (TestSchema.accept schema))
    ++ map (fun c =>
           ([ TestSchema.ruleName schema; "reject";
              inspect (TestSchema.config schema); inspect (JsStr (RejectTestCase.code c)) ],
            match RejectTestCase.description c with
            | Some "" | None => "no description"
            | Some d => d
            end))
        (from_option present [] (TestSchema.reject schema)).
Proof.
  rewrite leaves_getTestRule, map_app, !map_map. reflexivity.
Qed.

(** C3 as stated fails: the group of the configuration is the outer one, not
    the inner one; and a description that is the empty string is replaced by
    the fallback name. *)
Lemma nesting_is_config_then_code :
  map (fun l => l.1.1)
      (leaves (getTestRule Sample.inspect Sample.lint Sample.options Sample.schema))
  <> [ groups_code_then_config Sample.inspect Sample.schema "accept" "a{}";
       groups_code_then_config Sample.inspect Sample.schema "reject" "b{}" ]
  /\ map (fun l => l.1.2)
       (leaves (getTestRule Sample.inspect Sample.lint Sample.options Sample.schema_blank))
     <> [ "" ].
Proof. split; vm_compute; discriminate. Qed.

(** *** C4: the actual warnings of a reject case, their count, the parse errors *)

(** C4: when the engine returns a result entry [r] for a reject case, the
    first expectation, made right after the lint, is that [parseErrors] of
    [r] is empty; the second is that the sequence of [r]'s
    invalid-option warnings followed by [r]'s warnings has the length of the
    case's [warnings] list when there is one (empty or not) and 1 otherwise.
    A violated expectation ends the test with that failure, so a test that
    passes has met both. *)
Theorem reject_warning_count lint c schema tc output r :
  lint 0%nat (stylelintOptions c schema (RejectTestCase.code tc)) = inr output ->
  LinterResult.results output !! 0%nat = Some r ->
  let options := stylelintOptions c schema (RejectTestCase.code tc) in
  let actual := map OfInvalidOption (LintResult.invalidOptionWarnings r)
                ++ map OfRule (LintResult.warnings r) in
  let count := match RejectTestCase.warnings tc with
               | Some warnings => length warnings
               | None => 1%nat
               end in
  let no_parse_errors := ResultToMatchObject (Some r) (ResultPattern.mk None []) in
  let has_count := ToHaveLength actual count in
  let run := reject_comparisons lint c schema tc [] in
  grows_from [Lint options; Expect no_parse_errors] run.1
  /\ (LintResult.parseErrors r <> [] ->
      run = ([Lint options; Expect no_parse_errors],
             inl (AssertionError no_parse_errors)))
  /\ (LintResult.parseErrors r = [] ->
      grows_from [Lint options; Expect no_parse_errors; Expect has_count] run.1)
  /\ (LintResult.parseErrors r = [] -> length actual <> count ->
      run = ([Lint options; Expect no_parse_errors; Expect has_count],
             inl (AssertionError has_count)))
  /\ (run.2 = inr () -> LintResult.parseErrors r = [] /\ length actual = count).
Proof.
  intros Hlint Hr options actual count no_parse_errors has_count run.
  change count with (expected_length tc) in *.
  pose proof (reject_comparisons_grows lint c schema tc []) as Hgrow. fold run in Hgrow.
  pose proof (reject_comparisons_passes lint c schema tc []) as Hpass. fold run in Hpass.
  destruct (decide (LintResult.parseErrors r = [])) as [Hpe | Hpe].
  - destruct (decide (length actual = expected_length tc)) as [Hlen | Hlen].
    + rewrite (reject_lint_loop _ _ _ _ _ _ Hlint Hr Hpe Hlen) in Hgrow.
      assert (Hg3 : grows_from [Lint options; Expect no_parse_errors; Expect has_count] run.1).
      { eapply grows_from_trans; [apply forEach_check_warning_grows | exact Hgrow]. }
      repeat split; try tauto.
      eapply grows_from_trans; [| exact Hg3]. exists [Expect has_count]. reflexivity.
    + pose proof (reject_lint_count _ _ _ _ _ _ Hlint Hr Hpe Hlen) as Hl.
      apply reject_comparisons_fails in Hl. fold run in Hl.
      rewrite Hl. repeat split; try tauto; try discriminate.
      * exists [Expect has_count]. reflexivity.
      * intros _. apply grows_from_refl.
  - pose proof (reject_lint_parse_errors _ _ _ _ _ _ Hlint Hr Hpe) as Hl.
    apply reject_comparisons_fails in Hl. fold run in Hl.
    rewrite Hl. repeat split; try tauto; try discriminate.
    apply grows_from_refl.
Qed.

(** [reject_warning_count] at the sample schema. *)
Lemma reject_warning_count_witness :
  Sample.lint 0%nat (stylelintOptions Sample.config Sample.schema "b{}")
  = inr (Sample.output_of "b{}")
  /\ LinterResult.results (Sample.output_of "b{}") !! 0%nat = Some (Sample.result_of "b{}")
  /\ grows_from
       [ Lint (stylelintOptions Sample.config Sample.schema "b{}");
         Expect (ResultToMatchObject (Some (Sample.result_of "b{}"))
                   (ResultPattern.mk None []));
         Expect (ToHaveLength [OfRule Sample.unexpected_b] 1) ]
       (reject_comparisons Sample.lint Sample.config Sample.schema Sample.reject_b []).1.
Proof.
  split; [reflexivity |]. split; [reflexivity |].
  exact (proj1 (proj2 (proj2
           (reject_warning_count Sample.lint Sample.config Sample.schema Sample.reject_b
              (Sample.output_of "b{}") (Sample.result_of "b{}") eq_refl eq_refl)))
         eq_refl).
Defined.

(** *** C5: the expected warnings of a reject case *)

(** C5: once the parse errors and the count are as expected, the lint part
    of a reject test passes exactly when every expected warning (each entry
    of [warnings], or the case itself as the single one, with its own
    [message], [line], [column], [endLine] and [endColumn]) has a defined
    [message] and the actual warning at the same index has every property the
    expected one declares among text (for [message]), line, column, endLine
    and endColumn, with the declared value; properties not declared are not
    compared. The first expected warning without a [message] ends the test
    with the failed expectation that names the missing property. *)
Theorem expected_warnings_checked lint c schema tc output r :
  lint 0%nat (stylelintOptions c schema (RejectTestCase.code tc)) = inr output ->
  LinterResult.results output !! 0%nat = Some r ->
  LintResult.parseErrors r = [] ->
  let actual := map OfInvalidOption (LintResult.invalidOptionWarnings r)
                ++ map OfRule (LintResult.warnings r) in
  let expected := match RejectTestCase.warnings tc with
                  | Some warnings => warnings
                  | None => [Warning.mk (RejectTestCase.message tc) (RejectTestCase.line tc)
                               (RejectTestCase.column tc) (RejectTestCase.endLine tc)
                               (RejectTestCase.endColumn tc)]
                  end in
  length actual = length expected ->
  ((exists log, reject_lint lint c schema tc [] = (log, inr ()))
   <-> forall i w, expected !! i = Some w -> checked actual i w)
  /\ ((reject_comparisons lint c schema tc []).2 = inr () ->
      forall i w, expected !! i = Some w -> checked actual i w)
  /\ (forall i w,
        expected !! i = Some w -> Warning.message w = None ->
        (forall j w', j < i -> expected !! j = Some w' -> checked actual j w') ->
        exists log,
          reject_comparisons lint c schema tc []
          = (log, inl (AssertionError (ToBeDefined None message_required)))).
Proof.
  intros Hlint Hr Hpe actual expected Hlen.
  change expected with (expected_warnings tc) in *.
  rewrite <- expected_length_warnings in Hlen.
  pose proof (reject_lint_loop _ _ _ _ _ _ Hlint Hr Hpe Hlen) as Hloop.
  fold actual in Hloop.
  assert (Hiff : (exists log, reject_lint lint c schema tc [] = (log, inr ()))
                 <-> forall i w, expected_warnings tc !! i = Some w -> checked actual i w).
  { rewrite Hloop. apply (forEach_pass actual (expected_warnings tc) 0). }
  split; [exact Hiff |]. split.
  - intros Hpass. apply Hiff. apply reject_comparisons_passes in Hpass.
    destruct (reject_lint lint c schema tc []) as [log o]. exists log.
    simpl in Hpass. rewrite Hpass. reflexivity.
  - intros i w Hi Hm Hbefore.
    match type of Hloop with _ = forEach _ _ _ ?l =>
      destruct (forEach_missing_message actual (expected_warnings tc) 0 l i w Hi Hm Hbefore)
        as [log Hfail]
    end.
    rewrite <- Hloop in Hfail. exists log. apply reject_comparisons_fails. exact Hfail.
Qed.

(** [expected_warnings_checked] at the sample schema. *)
Lemma expected_warnings_checked_witness :
  Sample.lint 0%nat (stylelintOptions Sample.config Sample.schema "b{}")
  = inr (Sample.output_of "b{}")
  /\ LinterResult.results (Sample.output_of "b{}") !! 0%nat = Some (Sample.result_of "b{}")
  /\ LintResult.parseErrors (Sample.result_of "b{}") = []
  /\ length [OfRule Sample.unexpected_b]
     = length [Warning.mk (Some "unexpected b") (Some 1%Z) (Some 1%Z) None None]
  /\ checked [OfRule Sample.unexpected_b] 0
       (Warning.mk (Some "unexpected b") (Some 1%Z) (Some 1%Z) None None).
Proof.
  do 4 (split; [reflexivity |]).
  exact (proj1 (proj2
           (expected_warnings_checked Sample.lint Sample.config Sample.schema Sample.reject_b
              (Sample.output_of "b{}") (Sample.result_of "b{}")
              eq_refl eq_refl eq_refl eq_refl))
         ltac:(vm_compute; reflexivity) 0%nat
         (Warning.mk (Some "unexpected b") (Some 1%Z) (Some 1%Z) None None)
         eq_refl).
Defined.

(** *** C6: accept cases *)

(** C6: when the engine returns a result entry [r] for an accept case, the
    test expects, in this order, [warnings], [parseErrors] and
    [invalidOptionWarnings] of [r] to equal the empty array, the first
    violated expectation ending the test. Without the autofix flag the test
    is then over; with it the engine is invoked a second time, on the same
    code, configuration, syntax and file name and with [fix: true], and the
    text extracted from that result is expected to be the case's code. *)
Theorem accept_case_checked lint c schema tc output r :
  let options :=
    StylelintOptions.mk (TestCase.code tc) c (TestSchema.customSyntax schema)
      (TestSchema.codeFilename schema) None in
  let fix_options :=
    StylelintOptions.mk (TestCase.code tc) c (TestSchema.customSyntax schema)
      (TestSchema.codeFilename schema) (Some true) in
  lint 0%nat options = inr output ->
  LinterResult.results output !! 0%nat = Some r ->
  let e1 := WarningsToEqual (LintResult.warnings r) [] in
  let e2 := ParseErrorsToEqual (LintResult.parseErrors r) [] in
  let e3 := InvalidOptionWarningsToEqual (LintResult.invalidOptionWarnings r) [] in
  let run := accept_comparisons lint c schema tc [] in
  (LintResult.warnings r <> [] ->
   run = ([Lint options; Expect e1], inl (AssertionError e1)))
  /\ (LintResult.warnings r = [] -> LintResult.parseErrors r <> [] ->
      run = ([Lint options; Expect e1; Expect e2], inl (AssertionError e2)))
  /\ (LintResult.warnings r = [] -> LintResult.parseErrors r = [] ->
      LintResult.invalidOptionWarnings r <> [] ->
      run = ([Lint options; Expect e1; Expect e2; Expect e3], inl (AssertionError e3)))
  /\ (LintResult.warnings r = [] -> LintResult.parseErrors r = [] ->
      LintResult.invalidOptionWarnings r = [] ->
      truthy_bool (TestSchema.fix_ schema) = false ->
      run = ([Lint options; Expect e1; Expect e2; Expect e3], inr ()))
  /\ (LintResult.warnings r = [] -> LintResult.parseErrors r = [] ->
      LintResult.invalidOptionWarnings r = [] ->
      truthy_bool (TestSchema.fix_ schema) = true ->
      forall outputAfterFix fixedCode,
        lint 1%nat fix_options = inr outputAfterFix ->
        getOutputCss outputAfterFix = inr fixedCode ->
        let e4 := ToBe fixedCode (Some (TestCase.code tc)) in
        run = ([Lint options; Expect e1; Expect e2; Expect e3; Lint fix_options; Expect e4],
               if decide (fixedCode = TestCase.code tc)
               then inr () else inl (AssertionError e4)))
  /\ (run.2 = inr () ->
      LintResult.warnings r = [] /\ LintResult.parseErrors r = []
      /\ LintResult.invalidOptionWarnings r = []).
Proof.
  intros options fix_options Hlint Hr e1 e2 e3 run.
  change (stylelintOptions c schema (TestCase.code tc)) in (value of options).
  change (StylelintOptions.with_fix (Some true) options) in (value of fix_options).
  unfold options in Hlint.
  assert (Hrun : run
    = if decide (LintResult.warnings r = []) then
        if decide (LintResult.parseErrors r = []) then
          if decide (LintResult.invalidOptionWarnings r = []) then
            if truthy_bool (TestSchema.fix_ schema) then
              match lint 1%nat fix_options with
              | inr outputAfterFix =>
                  match getOutputCss outputAfterFix with
                  | inr fixedCode =>
                      ([Lint options; Expect e1; Expect e2; Expect e3; Lint fix_options;
                        Expect (ToBe fixedCode (Some (TestCase.code tc)))],
                       if decide (fixedCode = TestCase.code tc) then inr ()
                       else inl (AssertionError (ToBe fixedCode (Some (TestCase.code tc)))))
                  | inl e =>
                      ([Lint options; Expect e1; Expect e2; Expect e3; Lint fix_options], inl e)
                  end
              | inl e =>
                  ([Lint options; Expect e1; Expect e2; Expect e3; Lint fix_options], inl e)
              end
            else ([Lint options; Expect e1; Expect e2; Expect e3], inr ())
          else ([Lint options; Expect e1; Expect e2; Expect e3], inl (AssertionError e3))
        else ([Lint options; Expect e1; Expect e2], inl (AssertionError e2))
      else ([Lint options; Expect e1], inl (AssertionError e1))).
  { unfold run, e1, e2, e3, fix_options, options. unfold accept_comparisons, mbind, Test_bind, await_lint, lift, expect, first_result.
    cbn [app]. change (invocations []) with 0%nat. rewrite Hlint, Hr.
    cbn [holds app].
    repeat case_bool_decide; repeat case_decide; try contradiction; try reflexivity.
    destruct (truthy_bool (TestSchema.fix_ schema)); [| reflexivity].
    cbn [negb]. change (invocations _) with 1%nat.
    destruct (lint 1%nat _) as [e | outputAfterFix]; [reflexivity |].
    destruct (getOutputCss outputAfterFix) as [e | fixedCode]; [reflexivity |].
    cbn [holds app].
    case_bool_decide; case_decide; try reflexivity; congruence. }
  repeat split.
  - intros H. rewrite Hrun. rewrite decide_False by exact H. reflexivity.
  - intros H1 H2. rewrite Hrun. rewrite decide_True by exact H1.
    rewrite decide_False by exact H2. reflexivity.
  - intros H1 H2 H3. rewrite Hrun. rewrite decide_True by exact H1.
    rewrite decide_True by exact H2. rewrite decide_False by exact H3. reflexivity.
  - intros H1 H2 H3 Hfix. rewrite Hrun. rewrite !decide_True by assumption.
    rewrite Hfix. reflexivity.
  - intros H1 H2 H3 Hfix outputAfterFix fixedCode Hlint1 Hcss e4. rewrite Hrun.
    rewrite !decide_True by assumption. rewrite Hfix, Hlint1, Hcss. reflexivity.
  - match goal with H : _.2 = _ |- _ => rewrite Hrun in H end;
    repeat case_decide; try discriminate; assumption.
  - match goal with H : _.2 = _ |- _ => rewrite Hrun in H end;
    repeat case_decide; try discriminate; assumption.
  - match goal with H : _.2 = _ |- _ => rewrite Hrun in H end;
    repeat case_decide; try discriminate; assumption.
Qed.

(** [accept_case_checked] at the sample schema with autofix. *)
Lemma accept_case_checked_witness :
  Sample.lint 0%nat
    (StylelintOptions.mk "a{}" Sample.config None None None)
  = inr (Sample.output_of "a{}")
  /\ LinterResult.results (Sample.output_of "a{}") !! 0%nat = Some (Sample.result_of "a{}")
  /\ accept_comparisons Sample.lint Sample.config Sample.schema_fix Sample.accept_a []
     = ([ Lint (StylelintOptions.mk "a{}" Sample.config None None None);
          Expect (WarningsToEqual [] []);
          Expect (ParseErrorsToEqual [] []);
          Expect (InvalidOptionWarningsToEqual [] []);
          Lint (StylelintOptions.mk "a{}" Sample.config None None (Some true));
          Expect (ToBe "a{}" (Some "a{}")) ],
        inr ()).
Proof.
  split; [reflexivity |]. split; [reflexivity |].
  exact (proj1 (proj2 (proj2 (proj2 (proj2
           (accept_case_checked Sample.lint Sample.config Sample.schema_fix Sample.accept_a
              (Sample.output_of "a{}") (Sample.result_of "a{}") eq_refl eq_refl)))))
         eq_refl eq_refl eq_refl eq_refl (Sample.output_of "a{}") "a{}" eq_refl eq_refl).
Defined.

(** *** C7: unfixable cases that supply [fixed] *)

(** In the unfixable branch of the autofix pass (lines 287-294), the fixed
    text is expected to be the original code, and to be [fixed] when that is
    a non-empty string. *)
Lemma unfixable_case_passes lint c schema tc log outputAfterFix fixedCode :
  truthy_bool (RejectTestCase.unfixable tc) = true ->
  lint (invocations log)
    (StylelintOptions.with_fix (Some true)
       (stylelintOptions c schema (RejectTestCase.code tc))) = inr outputAfterFix ->
  getOutputCss outputAfterFix = inr fixedCode ->
  (exists log', reject_autofix lint c schema tc log = (log', inr (outputAfterFix, fixedCode)))
  <-> fixedCode = RejectTestCase.code tc
      /\ (truthy_string (RejectTestCase.fixed tc) = true ->
          RejectTestCase.fixed tc = Some fixedCode).
Proof.
  intros Hunfixable Hlint Hcss.
  unfold reject_autofix, mbind, Test_bind, await_lint, lift, expect, throw, mret, Test_ret.
  rewrite Hunfixable, andb_false_r, Hlint, Hcss. cbn [negb holds].
  destruct (truthy_string (RejectTestCase.fixed tc));
    repeat case_bool_decide; (split; [intros [log' Hrun] | intros [Hcode Hfixed]]);
    try discriminate Hrun; try (specialize (Hfixed eq_refl)); try congruence.
  all: try (split; [congruence | first [intros _; assumption | discriminate]]).
  all: eexists; reflexivity.
Qed.

(** C7, as the code has it: in a reject test under the autofix flag whose
    case has [unfixable] set, once the lint without autofix has passed and
    the autofix pass has returned a text, that text is expected to be [fixed]
    when [fixed] is a non-empty string, and then, or at once when [fixed] is
    absent or empty, to be the original code; the first expectation that
    does not hold ends the test, so the pass goes through only if the text is
    the code and the non-empty [fixed], if any. *)
Theorem unfixable_case_checked lint c schema tc log outputAfterFix fixedCode :
  let fix_options :=
    StylelintOptions.mk (RejectTestCase.code tc) c (TestSchema.customSyntax schema)
      (TestSchema.codeFilename schema) (Some true) in
  truthy_bool (TestSchema.fix_ schema) = true ->
  RejectTestCase.unfixable tc = Some true ->
  reject_lint lint c schema tc [] = (log, inr ()) ->
  lint 1%nat fix_options = inr outputAfterFix ->
  getOutputCss outputAfterFix = inr fixedCode ->
  let is_fixed := ToBe fixedCode (RejectTestCase.fixed tc) in
  let is_code := ToBe fixedCode (Some (RejectTestCase.code tc)) in
  let run := reject_autofix lint c schema tc log in
  (forall fixed,
      RejectTestCase.fixed tc = Some fixed -> fixed <> "" ->
      (fixed <> fixedCode ->
       run = (log ++ [Lint fix_options; Expect is_fixed], inl (AssertionError is_fixed)))
      /\ (fixed = fixedCode -> fixedCode <> RejectTestCase.code tc ->
          run = (log ++ [Lint fix_options; Expect is_fixed; Expect is_code],
                 inl (AssertionError is_code)))
      /\ (fixed = fixedCode -> fixedCode = RejectTestCase.code tc ->
          run = (log ++ [Lint fix_options; Expect is_fixed; Expect is_code],
                 inr (outputAfterFix, fixedCode))))
  /\ (RejectTestCase.fixed tc = None \/ RejectTestCase.fixed tc = Some "" ->
      (fixedCode <> RejectTestCase.code tc ->
       run = (log ++ [Lint fix_options; Expect is_code], inl (AssertionError is_code)))
      /\ (fixedCode = RejectTestCase.code tc ->
          run = (log ++ [Lint fix_options; Expect is_code],
                 inr (outputAfterFix, fixedCode))))
  /\ (forall log', run = (log', inr (outputAfterFix, fixedCode)) ->
      fixedCode = RejectTestCase.code tc
      /\ forall fixed,
           RejectTestCase.fixed tc = Some fixed -> fixed <> "" -> fixed = fixedCode)
  /\ (forall log' e, run = (log', inl e) ->
      reject_comparisons lint c schema tc [] = (log', inl e)).
Proof.
  intros fix_options Hfix Hunfixable Hpassed Hlint Hcss is_fixed is_code run.
  assert (Hone : invocations log = 1%nat).
  { pose proof (reject_lint_engine_calls lint c schema tc) as H.
    rewrite Hpassed in H. unfold invocations. cbn [fst] in H. rewrite H. reflexivity. }
  rewrite <- Hone in Hlint.
  change (StylelintOptions.with_fix (Some true)
            (stylelintOptions c schema (RejectTestCase.code tc)))
    in (value of fix_options).
  assert (Hrun : run
    = if truthy_string (RejectTestCase.fixed tc) then
        if decide (RejectTestCase.fixed tc = Some fixedCode) then
          if decide (fixedCode = RejectTestCase.code tc) then
            (log ++ [Lint fix_options; Expect is_fixed; Expect is_code],
             inr (outputAfterFix, fixedCode))
          else (log ++ [Lint fix_options; Expect is_fixed; Expect is_code],
                inl (AssertionError is_code))
        else (log ++ [Lint fix_options; Expect is_fixed], inl (AssertionError is_fixed))
      else
        if decide (fixedCode = RejectTestCase.code tc) then
          (log ++ [Lint fix_options; Expect is_code], inr (outputAfterFix, fixedCode))
        else (log ++ [Lint fix_options; Expect is_code], inl (AssertionError is_code))).
  { unfold run, reject_autofix, mbind, Test_bind, await_lint, lift, expect, throw, mret,
      Test_ret.
    rewrite Hunfixable. cbn [truthy_bool negb]. rewrite andb_false_r.
    unfold fix_options in Hlint. rewrite Hlint, Hcss. cbn [holds].
    destruct (truthy_string (RejectTestCase.fixed tc));
      repeat case_bool_decide; repeat case_decide; try congruence;
      rewrite <- ?app_assoc; reflexivity. }
  assert (Htruthy : forall fixed, RejectTestCase.fixed tc = Some fixed -> fixed <> "" ->
                    truthy_string (RejectTestCase.fixed tc) = true).
  { intros fixed -> Hne. destruct fixed; [contradiction | reflexivity]. }
  split; [| split; [| split]].
  - intros fixed Hfixed Hne. rewrite Hrun, (Htruthy fixed Hfixed Hne), Hfixed.
    split; [| split].
    + intros H. rewrite decide_False by congruence. reflexivity.
    + intros -> H. rewrite decide_True by reflexivity. rewrite decide_False by exact H.
      reflexivity.
    + intros -> H. rewrite decide_True by reflexivity. rewrite decide_True by exact H.
      reflexivity.
  - intros Hnone. rewrite Hrun.
    replace (truthy_string (RejectTestCase.fixed tc)) with false
      by (destruct Hnone as [-> | ->]; reflexivity).
    split; intros H; [rewrite decide_False by exact H | rewrite decide_True by exact H];
      reflexivity.
  - intros log' Hpass. rewrite Hrun in Hpass.
    destruct (truthy_string (RejectTestCase.fixed tc)) eqn:Ht.
    + repeat case_decide; try discriminate Hpass.
      split; [assumption |]. intros fixed Hfixed _. congruence.
    + case_decide; try discriminate Hpass.
      split; [assumption |]. intros fixed Hfixed Hne.
      pose proof (Htruthy fixed Hfixed Hne) as Ht'. congruence.
  - intros log' e Hfail. rewrite reject_comparisons_run, Hpassed, Hfix.
    unfold reject_fix, mbind, Test_bind. fold run. rewrite Hfail. reflexivity.
Qed.

(** [unfixable_case_checked] at a sample unfixable case with a non-empty
    [fixed]. *)
Lemma unfixable_case_checked_witness :
  truthy_bool (TestSchema.fix_ Sample.schema_fix) = true
  /\ RejectTestCase.unfixable Sample.reject_b_unfixable_fixed = Some true
  /\ (reject_lint Sample.lint Sample.config Sample.schema_fix
        Sample.reject_b_unfixable_fixed []).2 = inr ()
  /\ Sample.lint 1%nat (StylelintOptions.mk "b{}" Sample.config None None (Some true))
     = inr (Sample.output_of "b{}")
  /\ getOutputCss (Sample.output_of "b{}") = inr "b{}"
  /\ fixed_text_expectations
       (reject_autofix Sample.lint Sample.config Sample.schema_fix
          Sample.reject_b_unfixable_fixed
          (reject_lint Sample.lint Sample.config Sample.schema_fix
             Sample.reject_b_unfixable_fixed []).1).1
     = [ToBe "b{}" (Some "b{}"); ToBe "b{}" (Some "b{}")].
Proof.
  do 5 (split; [reflexivity |]).
  rewrite (proj2 (proj2 (proj1
             (unfixable_case_checked Sample.lint Sample.config Sample.schema_fix
                Sample.reject_b_unfixable_fixed
                (reject_lint Sample.lint Sample.config Sample.schema_fix
                   Sample.reject_b_unfixable_fixed []).1
                (Sample.output_of "b{}") "b{}" eq_refl eq_refl
                ltac:(vm_compute; reflexivity) eq_refl eq_refl)
             "b{}" eq_refl ltac:(discriminate)))
           eq_refl eq_refl).
  reflexivity.
Defined.

(** C7 as stated fails: on a case with [unfixable: true] and [fixed: ''],
    whose source the engine leaves unchanged, the test passes, the only
    expectation on the fixed text being that it is the original code; it is
    not compared with the supplied [fixed], an expectation that would not
    have held. *)
Theorem unfixable_empty_fixed_not_compared :
  let run :=
    reject_comparisons Sample.lint Sample.config Sample.schema_fixed_empty
      Sample.reject_b_fixed_empty [] in
  run.2 = inr ()
  /\ fixed_text_expectations run.1 = [ToBe "b{}" (Some "b{}")]
  /\ holds (ToBe "b{}" (RejectTestCase.fixed Sample.reject_b_fixed_empty)) = false.
Proof. repeat split; vm_compute; reflexivity. Qed.

(** *** C8: the lint of the fixed code *)

(** C8: in a reject test under the autofix flag, once the autofix pass and
    the expectations on the fixed text have passed, the engine is invoked a
    third time, on the fixed text and with [fix] set to the case's
    [unfixable], so with autofix exactly when [unfixable] is true; the test
    then expects the first entry of the new result to have the warnings of
    the autofix pass's entry and no parse errors, and passes exactly when it
    does. *)
Theorem fixed_code_relinted lint c schema tc log1 log2 outputAfterFix fixedCode :
  truthy_bool (TestSchema.fix_ schema) = true ->
  reject_lint lint c schema tc [] = (log1, inr ()) ->
  reject_autofix lint c schema tc log1 = (log2, inr (outputAfterFix, fixedCode)) ->
  let options := stylelintOptions c schema (RejectTestCase.code tc) in
  let fix_options := StylelintOptions.with_fix (Some true) options in
  let relint_options :=
    StylelintOptions.mk fixedCode c (TestSchema.customSyntax schema)
      (TestSchema.codeFilename schema) (RejectTestCase.unfixable tc) in
  let run := reject_comparisons lint c schema tc [] in
  lint 1%nat fix_options = inr outputAfterFix
  /\ getOutputCss outputAfterFix = inr fixedCode
  /\ engine_calls log2 = [options; fix_options]
  /\ (truthy_bool (StylelintOptions.fix_ relint_options) = true
      <-> RejectTestCase.unfixable tc = Some true)
  /\ exists afterFix,
       LinterResult.results outputAfterFix !! 0%nat = Some afterFix
       /\ forall output,
            lint 2%nat relint_options = inr output ->
            let e := ResultToMatchObject (LinterResult.results output !! 0%nat)
                       (ResultPattern.mk (Some (LintResult.warnings afterFix)) []) in
            run.1 = log2 ++ [Lint relint_options; Expect e]
            /\ (run.2 = inr ()
                <-> exists r, LinterResult.results output !! 0%nat = Some r
                              /\ LintResult.warnings r = LintResult.warnings afterFix
                              /\ LintResult.parseErrors r = [])
            /\ (run.2 <> inr () -> run.2 = inl (AssertionError e)).
Proof.
  intros Hfix Hlint Hauto options fix_options relint_options run.
  pose proof (reject_lint_engine_calls lint c schema tc) as Hcalls1.
  rewrite Hlint in Hcalls1. cbn [fst] in Hcalls1.
  destruct (reject_autofix_success _ _ _ _ _ _ _ _ Hauto) as (Hlint1 & Hcss & Hcalls2).
  unfold invocations in Hlint1. rewrite Hcalls1 in Hlint1, Hcalls2. cbn [length app] in Hlint1, Hcalls2.
  split; [exact Hlint1 |]. split; [exact Hcss |]. split; [exact Hcalls2 |]. split.
  { cbn [StylelintOptions.fix_ relint_options].
    destruct (RejectTestCase.unfixable tc) as [[|] |]; cbn; split; congruence. }
  assert (Hfirst : exists afterFix, LinterResult.results outputAfterFix !! 0%nat = Some afterFix).
  { unfold getOutputCss, first_result in Hcss.
    destruct (LinterResult.results outputAfterFix !! 0%nat) as [afterFix |];
      [eauto | discriminate Hcss]. }
  destruct Hfirst as [afterFix Hfirst]. exists afterFix. split; [exact Hfirst |].
  intros output Hlint2 e.
  assert (Hrun : run = (log2 ++ [Lint relint_options; Expect e],
                        if holds e then inr () else inl (AssertionError e))).
  { unfold run. rewrite reject_comparisons_run, Hlint, Hfix.
    unfold reject_fix. unfold mbind at 1. unfold Test_bind. rewrite Hauto.
    unfold reject_relint, mbind, Test_bind, await_lint, lift, expect, first_result.
    unfold invocations. rewrite Hcalls2. cbn [length].
    change (StylelintOptions.with_fix _ (StylelintOptions.with_code _ _)) with relint_options.
    rewrite Hlint2, Hfirst. rewrite <- app_assoc. reflexivity. }
  rewrite Hrun. cbn [fst snd]. split; [reflexivity |]. split.
  - unfold e. cbn [holds]. destruct (LinterResult.results output !! 0%nat) as [r |].
    + unfold matches_result. cbn [ResultPattern.warnings ResultPattern.parseErrors].
      destruct (bool_decide _ && bool_decide _) eqn:Hb.
      * apply andb_true_iff in Hb as [Hw Hp]. apply bool_decide_eq_true in Hw, Hp.
        split; [| reflexivity]. intros _. exists r. auto.
      * split; [discriminate |]. intros (r' & [= <-] & Hw & Hp).
        apply andb_false_iff in Hb as [Hb | Hb]; apply bool_decide_eq_false in Hb; contradiction.
    + split; [discriminate |]. intros (r & Hr & _). discriminate Hr.
  - destruct (holds e); [intros H; destruct H; reflexivity | reflexivity].
Qed.

(** [fixed_code_relinted] at the sample schema with an unfixable case. *)
Lemma fixed_code_relinted_witness :
  truthy_bool (TestSchema.fix_ Sample.schema_unfixable) = true
  /\ (reject_lint Sample.lint Sample.config Sample.schema_unfixable
        Sample.reject_b_unfixable []).2 = inr ()
  /\ (reject_autofix Sample.lint Sample.config Sample.schema_unfixable
        Sample.reject_b_unfixable
        (reject_lint Sample.lint Sample.config Sample.schema_unfixable
           Sample.reject_b_unfixable []).1).2
     = inr (Sample.output_of "b{}", "b{}")
  /\ engine_calls
       (reject_autofix Sample.lint Sample.config Sample.schema_unfixable
          Sample.reject_b_unfixable
          (reject_lint Sample.lint Sample.config Sample.schema_unfixable
             Sample.reject_b_unfixable []).1).1
     = [ stylelintOptions Sample.config Sample.schema_unfixable "b{}";
         StylelintOptions.with_fix (Some true)
           (stylelintOptions Sample.config Sample.schema_unfixable "b{}") ].
Proof.
  split; [reflexivity |]. split; [reflexivity |]. split; [reflexivity |].
  exact (proj1 (proj2 (proj2
           (fixed_code_relinted Sample.lint Sample.config Sample.schema_unfixable
              Sample.reject_b_unfixable
              (reject_lint Sample.lint Sample.config Sample.schema_unfixable
                 Sample.reject_b_unfixable []).1
              (reject_autofix Sample.lint Sample.config Sample.schema_unfixable
                 Sample.reject_b_unfixable
                 (reject_lint Sample.lint Sample.config Sample.schema_unfixable
                    Sample.reject_b_unfixable []).1).1
              (Sample.output_of "b{}") "b{}" eq_refl eq_refl eq_refl)))).
Defined.

(** *** C9: the fixed source of an engine result *)

(** C9, as the code has it: on an engine result with a first result entry,
    [getOutputCss] returns the root rendered with the recorded syntax when
    the entry carries a processed-tree handle with a root and options, and
    throws the [TypeError] [Invalid result] in every other case. *)
Theorem getOutputCss_first_entry (r : LintResult.t) (rest : list LintResult.t) :
  (forall root opts,
      LintResult._postcssResult r = Some (PostcssResult.mk (Some root) (Some opts)) ->
      getOutputCss (LinterResult.mk (r :: rest))
      = inr (Root.toString root (ResultOptions.syntax opts)))
  /\ ((forall root opts,
         LintResult._postcssResult r <> Some (PostcssResult.mk (Some root) (Some opts))) ->
      getOutputCss (LinterResult.mk (r :: rest)) = inl (TypeError "Invalid result")).
Proof.
  unfold getOutputCss, first_result. cbn. split.
  - intros root opts ->. reflexivity.
  - intros Hnone.
    destruct (LintResult._postcssResult r) as [[[root |] [opts |]] |]; try reflexivity.
    destruct (Hnone root opts). reflexivity.
Qed.

(** C9 as stated fails: an engine result without any result entry makes
    [getOutputCss] throw the [TypeError] of reading a property of
    [undefined], whose message is not [Invalid result]. *)
Lemma getOutputCss_no_entry :
  getOutputCss (LinterResult.mk [])
  = inl (TypeError "Cannot read properties of undefined (reading '_postcssResult')")
  /\ getOutputCss (LinterResult.mk []) <> inl (TypeError "Invalid result").
Proof. split; [reflexivity | vm_compute; discriminate]. Qed.

(** *** C10: falsy elements of a cases array *)

(** C10: a falsy element of a cases array registers nothing; a cases array
    registers, inside its one group, exactly the groups and tests of its case
    objects, in order, and one leaf test for each of them. *)
Theorem falsy_entries_are_skipped {T B : Type} `{!ExtendsTestCase T}
    inspect name schema (comparisons : T -> B) (cases : list (Entry T)) :
  (forall v, setupTestCase inspect schema comparisons (Hole v) = [])
  /\ setupTestCases inspect name (Some cases) schema comparisons
     = match cases with
       | [] => []
       | _ :: _ =>
           [ Describe (testGroup schema) name
               (map
                  (fun c =>
                     Describe Plain (inspect (TestSchema.config schema))
                       [ Describe Plain (inspect (JsStr (TestCase.code (upcast c))))
                           [ It (spec (upcast c))
                               (or_string (TestCase.description (upcast c))
                                          "no description")
                               (comparisons c) ] ])
                  (present cases)) ]
       end
  /\ length (flat_map leaves (setupTestCases inspect name (Some cases) schema comparisons))
     = length (present cases).
Proof.
  split; [reflexivity |]. split.
  - unfold setupTestCases. destruct cases as [| entry cases]; [reflexivity |].
    rewrite flat_map_setupTestCase_present.
    cbn [length Nat.eqb negb]. do 2 f_equal.
  - rewrite leaves_setupTestCases, length_map. reflexivity.
Qed.

(** ** Further properties of the driver *)

(** *** Groups and execution variants *)

(** X1: inside the group of the rule, the group [accept] is registered
    exactly when the accept cases are a non-empty array, and the group
    [reject] after it exactly when the reject cases are one; an absent or
    empty array registers no group, an array of falsy elements only
    registers its group all the same. *)
Theorem groups_registered inspect lint options schema :
  group_names (getTestRule inspect lint options schema)
  = match TestSchema.accept schema with Some (_ :: _) => ["accept"] | _ => [] end
    ++ match TestSchema.reject schema with Some (_ :: _) => ["reject"] | _ => [] end.
Proof.
  unfold getTestRule, group_names, setupTestCases.
  destruct (TestSchema.accept schema) as [[| a la] |],
           (TestSchema.reject schema) as [[| r lr] |]; reflexivity.
Qed.

Lemma modifiers_setupTestCases {T B : Type} `{!ExtendsTestCase T}
    inspect name (cases : option (list (Entry T))) schema (comparisons : T -> B) :
  flat_map modifiers (setupTestCases inspect name cases schema comparisons)
  = map (fun c =>
           ([ variant (TestSchema.only schema) (TestSchema.skip schema); Plain; Plain ],
            variant (TestCase.only (upcast c)) (TestCase.skip (upcast c))))
        (from_option present [] cases).
Proof.
  destruct cases as [cases |]; [| reflexivity].
  unfold setupTestCases. destruct cases as [| entry cases]; [reflexivity |].
  rewrite flat_map_setupTestCase_present. cbn [from_option].
  generalize (present (entry :: cases)). intros l.
  cbn [length Nat.eqb negb flat_map modifiers]. rewrite app_nil_r.
  assert (Hg : testGroup schema = variant (TestSchema.only schema) (TestSchema.skip schema)).
  { unfold testGroup, variant, truthy_bool.
    destruct (TestSchema.only schema) as [[|] |], (TestSchema.skip schema) as [[|] |];
      reflexivity. }
  rewrite Hg.
  induction l as [| c l IH]; [reflexivity |].
  cbn [flat_map map app setupTestCase modifiers] in *.
  f_equal; [| exact IH].
  f_equal. unfold spec, variant, truthy_bool.
  destruct (TestCase.only (upcast c)) as [[|] |], (TestCase.skip (upcast c)) as [[|] |];
    reflexivity.
Qed.

(** X2: the group of the rule and the groups of the configuration and of
    the source text are plain; the [accept] and [reject] groups both take the
    schema's variant and a leaf test takes its case's variant, where [only]
    wins over [skip] when both are set. *)
Theorem execution_variants inspect lint options schema :
  modifiers (getTestRule inspect lint options schema)
  = map (fun c =>
           ([ Plain; variant (TestSchema.only schema) (TestSchema.skip schema); Plain; Plain ],
            variant (TestCase.only c) (TestCase.skip c)))
        (from_option present [] (TestSchema.accept schema))
    ++ map (fun c =>
           ([ Plain; variant (TestSchema.only schema) (TestSchema.skip schema); Plain; Plain ],
            variant (RejectTestCase.only c) (RejectTestCase.skip c)))
        (from_option present [] (TestSchema.reject schema)).
Proof.
  unfold getTestRule. cbn [modifiers].
  rewrite flat_map_app, !modifiers_setupTestCases, map_app, !map_map.
  reflexivity.
Qed.

(** X3: when a reject case has a [warnings] list, the case's own
    [message], [line], [column], [endLine] and [endColumn] play no part in
    its test. *)
Theorem own_fields_ignored_with_warnings lint c schema tc warnings
    message line column endLine endColumn log :
  RejectTestCase.warnings tc = Some warnings ->
  reject_comparisons lint c schema tc log
  = reject_comparisons lint c schema
      (RejectTestCase.mk (RejectTestCase.code tc) (RejectTestCase.description tc)
         (RejectTestCase.only tc) (RejectTestCase.skip tc)
         message line column endLine endColumn
         (RejectTestCase.fixed tc) (RejectTestCase.unfixable tc)
         (RejectTestCase.warnings tc)) log.
Proof.
  intros H. destruct tc; cbn in H; subst. reflexivity.
Qed.

(** [own_fields_ignored_with_warnings] at a sample case that lists its
    expected warnings. *)
Lemma own_fields_ignored_with_warnings_witness :
  RejectTestCase.warnings Sample.reject_b_listed
  = Some [Warning.mk (Some "unexpected b") (Some 1%Z) (Some 1%Z) None None]
  /\ reject_comparisons Sample.lint Sample.config Sample.schema Sample.reject_b_listed []
     = reject_comparisons Sample.lint Sample.config Sample.schema
         (RejectTestCase.mk "b{}" None None None
            (Some "another message") (Some 7%Z) None None None
            None None (RejectTestCase.warnings Sample.reject_b_listed)) [].
Proof.
  split; [reflexivity |].
  exact (own_fields_ignored_with_warnings Sample.lint Sample.config Sample.schema
           Sample.reject_b_listed _ (Some "another message") (Some 7%Z) None None None []
           eq_refl).
Defined.

(** *** What a passing test establishes *)

(** X4: an accept test passes exactly when the engine returns a result
    whose first entry has no warnings, no parse errors and no invalid-option
    warnings and, under the autofix flag, the second invocation, with
    [fix: true], returns a result whose extracted text is the case's code. *)
Theorem accept_passes_iff lint c schema tc :
  let options :=
    StylelintOptions.mk (TestCase.code tc) c (TestSchema.customSyntax schema)
      (TestSchema.codeFilename schema) None in
  let fix_options :=
    StylelintOptions.mk (TestCase.code tc) c (TestSchema.customSyntax schema)
      (TestSchema.codeFilename schema) (Some true) in
  (accept_comparisons lint c schema tc []).2 = inr ()
  <-> exists output r,
        lint 0%nat options = inr output
        /\ LinterResult.results output !! 0%nat = Some r
        /\ LintResult.warnings r = []
        /\ LintResult.parseErrors r = []
        /\ LintResult.invalidOptionWarnings r = []
        /\ (truthy_bool (TestSchema.fix_ schema) = true ->
            exists outputAfterFix,
              lint 1%nat fix_options = inr outputAfterFix
              /\ getOutputCss outputAfterFix = inr (TestCase.code tc)).
Proof.
  change (StylelintOptions.mk (TestCase.code tc) c (TestSchema.customSyntax schema)
            (TestSchema.codeFilename schema) (Some true))
    with (StylelintOptions.with_fix (Some true) (stylelintOptions c schema (TestCase.code tc))).
  change (StylelintOptions.mk (TestCase.code tc) c (TestSchema.customSyntax schema)
            (TestSchema.codeFilename schema) None)
    with (stylelintOptions c schema (TestCase.code tc)).
  cbv zeta.
  unfold accept_comparisons, mbind, Test_bind, await_lint, lift, expect, first_result.
  cbn [app]. change (invocations []) with 0%nat.
  destruct (lint 0%nat _) as [e | output] eqn:Hlint; cbn [snd].
  { split; [discriminate | intros (? & ? & [=] & _)]. }
  destruct (LinterResult.results output !! 0%nat) as [r |] eqn:Hr; cbn [snd].
  2: { split; [discriminate | intros (? & ? & [= <-] & Hr' & _); congruence]. }
  cbn [holds app].
  repeat (case_bool_decide; cbn [snd app]);
    try (split; [discriminate | intros (? & ? & [= <-] & Hr' & ? & ? & ? & _); congruence]).
  destruct (truthy_bool (TestSchema.fix_ schema)); cbn [negb snd].
  2: { split; [| reflexivity]. intros _. exists output, r. repeat split; try assumption.
       discriminate. }
  change (invocations _) with 1%nat.
  destruct (lint 1%nat _) as [e | outputAfterFix] eqn:Hlint1; cbn [snd].
  { split; [discriminate |].
    intros (? & ? & _ & _ & _ & _ & _ & Hfix). destruct (Hfix eq_refl) as (? & [=] & _). }
  destruct (getOutputCss outputAfterFix) as [e | fixedCode] eqn:Hcss; cbn [snd].
  { split; [discriminate |].
    intros (? & ? & _ & _ & _ & _ & _ & Hfix).
    destruct (Hfix eq_refl) as (? & [= <-] & Hcss'). congruence. }
  cbn [holds]. case_bool_decide as Hfixed; cbn [snd].
  - split; [| reflexivity]. intros _. exists output, r. repeat split; try assumption.
    intros _. exists outputAfterFix. split; [reflexivity | congruence].
  - split; [discriminate |].
    intros (? & ? & _ & _ & _ & _ & _ & Hfix).
    destruct (Hfix eq_refl) as (? & [= <-] & Hcss'). congruence.
Qed.

(** In the other branch of the autofix pass (lines 284-286), the fixed text
    is expected to be [fixed] and not to be the original code. *)
Lemma fixable_case_passes lint c schema tc log outputAfterFix fixedCode :
  truthy_bool (RejectTestCase.unfixable tc) = false ->
  lint (invocations log)
    (StylelintOptions.with_fix (Some true)
       (stylelintOptions c schema (RejectTestCase.code tc))) = inr outputAfterFix ->
  getOutputCss outputAfterFix = inr fixedCode ->
  (exists log', reject_autofix lint c schema tc log = (log', inr (outputAfterFix, fixedCode)))
  <-> RejectTestCase.fixed tc = Some fixedCode
      /\ fixedCode <> RejectTestCase.code tc.
Proof.
  intros Hunfixable Hlint Hcss.
  unfold reject_autofix, mbind, Test_bind, await_lint, lift, expect, throw, mret, Test_ret.
  rewrite Hunfixable. cbn [negb].
  destruct (RejectTestCase.fixed tc) as [fixed |] eqn:Hfixed.
  - assert (Hguard : truthy_bool (TestSchema.fix_ schema)
                     && negb (truthy_string (Some fixed))
                     && negb (bool_decide (Some fixed = Some "")) && true = false).
    { destruct (truthy_bool (TestSchema.fix_ schema)); [| reflexivity].
      destruct fixed as [| a s]; [| reflexivity].
      cbn. rewrite bool_decide_eq_true_2 by reflexivity. reflexivity. }
    rewrite Hguard, Hlint, Hcss. cbn [holds].
    repeat case_bool_decide; cbn.
    all: split; [intros [log' Hrun] | intros [Heq Hne]]; try discriminate Hrun;
      try congruence.
    all: first [split; assumption | eexists; reflexivity].
  - split; [| intros [H _]; discriminate H].
    intros [log' Hrun].
    destruct (truthy_bool (TestSchema.fix_ schema)); cbn in Hrun; [discriminate Hrun |].
    rewrite Hlint, Hcss in Hrun. cbn in Hrun.
    rewrite bool_decide_eq_false_2 in Hrun by discriminate. discriminate Hrun.
Qed.

Lemma reject_lint_passes_iff lint c schema tc :
  (exists log, reject_lint lint c schema tc [] = (log, inr ()))
  <-> exists output r,
        lint 0%nat (stylelintOptions c schema (RejectTestCase.code tc)) = inr output
        /\ LinterResult.results output !! 0%nat = Some r
        /\ LintResult.parseErrors r = []
        /\ length (map OfInvalidOption (LintResult.invalidOptionWarnings r)
                   ++ map OfRule (LintResult.warnings r)) = expected_length tc
        /\ forall i w,
             expected_warnings tc !! i = Some w ->
             checked (map OfInvalidOption (LintResult.invalidOptionWarnings r)
                      ++ map OfRule (LintResult.warnings r)) i w.
Proof.
  destruct (lint 0%nat (stylelintOptions c schema (RejectTestCase.code tc)))
    as [e | output] eqn:Hlint.
  { split; [| intros (? & ? & [=] & _)].
    intros [log H]. revert H.
    unfold reject_lint, mbind, Test_bind, await_lint. cbn [app].
    change (invocations []) with 0%nat. rewrite Hlint. discriminate. }
  destruct (LinterResult.results output !! 0%nat) as [r |] eqn:Hr.
  2: { split; [| intros (? & ? & [= <-] & Hr' & _); congruence].
       intros [log H]. revert H.
       unfold reject_lint, mbind, Test_bind, await_lint, lift, actualWarnings, first_result.
       cbn [app]. change (invocations []) with 0%nat. rewrite Hlint, Hr. discriminate. }
  destruct (decide (LintResult.parseErrors r = [])) as [Hpe | Hpe].
  2: { rewrite (reject_lint_parse_errors _ _ _ _ _ _ Hlint Hr Hpe).
       split; [intros [log H]; discriminate H |].
       intros (? & ? & [= <-] & Hr' & ? & _). congruence. }
  destruct (decide (length (map OfInvalidOption (LintResult.invalidOptionWarnings r)
                            ++ map OfRule (LintResult.warnings r)) = expected_length tc))
    as [Hlen | Hlen].
  2: { rewrite (reject_lint_count _ _ _ _ _ _ Hlint Hr Hpe Hlen).
       split; [intros [log H]; discriminate H |].
       intros (? & ? & [= <-] & Hr' & ? & ? & _). congruence. }
  rewrite (reject_lint_loop _ _ _ _ _ _ Hlint Hr Hpe Hlen).
  rewrite forEach_pass. split.
  - intros H. exists output, r. auto.
  - intros (? & r' & [= <-] & Hr' & _ & _ & H).
    assert (r' = r) as -> by congruence. exact H.
Qed.

Lemma snd_inr_run {A : Type} (run : list Event * (Failure + A)) (x : A) :
  run.2 = inr x <-> exists log, run = (log, inr x).
Proof.
  destruct run as [log o]. cbn. split.
  - intros ->. eauto.
  - intros [log' [= _ ->]]. reflexivity.
Qed.

Lemma reject_passes_iff_lint lint c schema tc :
  truthy_bool (TestSchema.fix_ schema) = false ->
  (reject_comparisons lint c schema tc []).2 = inr ()
  <-> exists log, reject_lint lint c schema tc [] = (log, inr ()).
Proof.
  intros Hfix. rewrite reject_comparisons_run, Hfix.
  destruct (reject_lint lint c schema tc []) as [log [e | []]]; cbn.
  - split; [discriminate | intros [log' H]; discriminate H].
  - split; [eauto | reflexivity].
Qed.

(** X5: without the autofix flag a reject test passes exactly when the
    engine returns a result whose first entry has no parse errors and as many
    invalid-option warnings and warnings together as are expected, each
    expected warning having a message and agreeing with the actual warning
    at its index. *)
Theorem reject_passes_without_fix lint c schema tc :
  truthy_bool (TestSchema.fix_ schema) = false ->
  let options := stylelintOptions c schema (RejectTestCase.code tc) in
  let expected := match RejectTestCase.warnings tc with
                  | Some warnings => warnings
                  | None => [Warning.mk (RejectTestCase.message tc) (RejectTestCase.line tc)
                               (RejectTestCase.column tc) (RejectTestCase.endLine tc)
                               (RejectTestCase.endColumn tc)]
                  end in
  (reject_comparisons lint c schema tc []).2 = inr ()
  <-> exists output r,
        lint 0%nat options = inr output
        /\ LinterResult.results output !! 0%nat = Some r
        /\ LintResult.parseErrors r = []
        /\ length (LintResult.invalidOptionWarnings r) + length (LintResult.warnings r)
           = length expected
        /\ forall i w,
             expected !! i = Some w ->
             checked (map OfInvalidOption (LintResult.invalidOptionWarnings r)
                      ++ map OfRule (LintResult.warnings r)) i w.
Proof.
  intros Hfix options expected.
  change expected with (expected_warnings tc).
  rewrite reject_passes_iff_lint by exact Hfix.
  rewrite reject_lint_passes_iff.
  setoid_rewrite expected_length_warnings.
  setoid_rewrite length_app. setoid_rewrite length_map. reflexivity.
Qed.

(** [reject_passes_without_fix] at the sample schema. *)
Lemma reject_passes_without_fix_witness :
  truthy_bool (TestSchema.fix_ Sample.schema) = false
  /\ exists output r,
       Sample.lint 0%nat (stylelintOptions Sample.config Sample.schema "b{}") = inr output
       /\ LinterResult.results output !! 0%nat = Some r
       /\ LintResult.parseErrors r = [].
Proof.
  split; [reflexivity |].
  destruct (proj1 (reject_passes_without_fix Sample.lint Sample.config Sample.schema
                     Sample.reject_b eq_refl)
              ltac:(vm_compute; reflexivity))
    as (output & r & H0 & Hr & Hpe & _).
  exists output, r. split; [exact H0 |]. split; [exact Hr | exact Hpe].
Defined.

(** When the lint of the fixed code (lines 296-306) passes. *)
Lemma reject_relint_passes_iff lint c schema tc outputAfterFix fixedCode log :
  (exists log', reject_relint lint c schema tc outputAfterFix fixedCode log = (log', inr ()))
  <-> exists output r afterFix,
        lint (invocations log)
          (StylelintOptions.mk fixedCode c (TestSchema.customSyntax schema)
             (TestSchema.codeFilename schema) (RejectTestCase.unfixable tc)) = inr output
        /\ LinterResult.results outputAfterFix !! 0%nat = Some afterFix
        /\ LinterResult.results output !! 0%nat = Some r
        /\ LintResult.warnings r = LintResult.warnings afterFix
        /\ LintResult.parseErrors r = [].
Proof.
  unfold reject_relint, mbind, Test_bind, await_lint, lift, expect, first_result.
  change (StylelintOptions.with_fix _ (StylelintOptions.with_code _ _))
    with (StylelintOptions.mk fixedCode c (TestSchema.customSyntax schema)
            (TestSchema.codeFilename schema) (RejectTestCase.unfixable tc)).
  destruct (lint _ _) as [e | output] eqn:Hlint.
  { split; [intros [log' H]; discriminate H | intros (? & ? & ? & [=] & _)]. }
  destruct (LinterResult.results outputAfterFix !! 0%nat) as [afterFix |] eqn:Haf.
  2: { split; [intros [log' H]; discriminate H | intros (? & ? & ? & _ & [=] & _)]. }
  cbn [holds]. destruct (LinterResult.results output !! 0%nat) as [r |] eqn:Hr.
  2: { split; [intros [log' H]; discriminate H |].
       intros (? & ? & ? & [= <-] & _ & Hr' & _). congruence. }
  unfold matches_result. cbn [ResultPattern.warnings ResultPattern.parseErrors].
  split.
  - intros [log' H]. exists output, r, afterFix.
    repeat case_bool_decide; try discriminate H. auto.
  - intros (output' & r' & afterFix' & [= <-] & [= <-] & Hr' & Hw & Hp).
    assert (r' = r) as -> by congruence.
    rewrite !bool_decide_eq_true_2 by assumption. eexists. reflexivity.
Qed.

(** X6: under the autofix flag a reject test passes exactly when the lint
    without autofix is as expected (as in X5), the second invocation, with
    [fix: true], returns a result with a first entry and an extractable text,
    that text is the code (and the non-empty [fixed], if any) for an
    unfixable case and is [fixed] and not the code for any other case, and
    the third invocation, on that text with [fix] set to [unfixable], returns
    a first entry with the warnings of the second invocation's and no parse
    errors. *)
Theorem reject_passes_with_fix lint c schema tc :
  truthy_bool (TestSchema.fix_ schema) = true ->
  let options :=
    StylelintOptions.mk (RejectTestCase.code tc) c (TestSchema.customSyntax schema)
      (TestSchema.codeFilename schema) None in
  let fix_options :=
    StylelintOptions.mk (RejectTestCase.code tc) c (TestSchema.customSyntax schema)
      (TestSchema.codeFilename schema) (Some true) in
  let expected := match RejectTestCase.warnings tc with
                  | Some warnings => warnings
                  | None => [Warning.mk (RejectTestCase.message tc) (RejectTestCase.line tc)
                               (RejectTestCase.column tc) (RejectTestCase.endLine tc)
                               (RejectTestCase.endColumn tc)]
                  end in
  (reject_comparisons lint c schema tc []).2 = inr ()
  <-> exists output r outputAfterFix afterFix fixedCode outputRelint relint,
        lint 0%nat options = inr output
        /\ LinterResult.results output !! 0%nat = Some r
        /\ LintResult.parseErrors r = []
        /\ length (LintResult.invalidOptionWarnings r) + length (LintResult.warnings r)
           = length expected
        /\ (forall i w,
              expected !! i = Some w ->
              checked (map OfInvalidOption (LintResult.invalidOptionWarnings r)
                       ++ map OfRule (LintResult.warnings r)) i w)
        /\ lint 1%nat fix_options = inr outputAfterFix
        /\ LinterResult.results outputAfterFix !! 0%nat = Some afterFix
        /\ getOutputCss outputAfterFix = inr fixedCode
        /\ (if truthy_bool (RejectTestCase.unfixable tc)
            then fixedCode = RejectTestCase.code tc
                 /\ (truthy_string (RejectTestCase.fixed tc) = true ->
                     RejectTestCase.fixed tc = Some fixedCode)
            else RejectTestCase.fixed tc = Some fixedCode
                 /\ fixedCode <> RejectTestCase.code tc)
        /\ lint 2%nat
             (StylelintOptions.mk fixedCode c (TestSchema.customSyntax schema)
                (TestSchema.codeFilename schema) (RejectTestCase.unfixable tc))
           = inr outputRelint
        /\ LinterResult.results outputRelint !! 0%nat = Some relint
        /\ LintResult.warnings relint = LintResult.warnings afterFix
        /\ LintResult.parseErrors relint = [].
Proof.
  intros Hfix options fix_options expected.
  change (stylelintOptions c schema (RejectTestCase.code tc)) in (value of options).
  change (StylelintOptions.with_fix (Some true) options) in (value of fix_options).
  unfold fix_options.
  change expected with (expected_warnings tc).
  assert (Hbranch : forall log outputAfterFix fixedCode,
    lint (invocations log) (StylelintOptions.with_fix (Some true) options) = inr outputAfterFix ->
    getOutputCss outputAfterFix = inr fixedCode ->
    (exists log', reject_autofix lint c schema tc log = (log', inr (outputAfterFix, fixedCode)))
    <-> (if truthy_bool (RejectTestCase.unfixable tc)
         then fixedCode = RejectTestCase.code tc
              /\ (truthy_string (RejectTestCase.fixed tc) = true ->
                  RejectTestCase.fixed tc = Some fixedCode)
         else RejectTestCase.fixed tc = Some fixedCode
              /\ fixedCode <> RejectTestCase.code tc)).
  { intros log outputAfterFix fixedCode Hl Hc.
    destruct (truthy_bool (RejectTestCase.unfixable tc)) eqn:Hu.
    - apply unfixable_case_passes; assumption.
    - apply fixable_case_passes; assumption. }
  pose proof (reject_lint_engine_calls lint c schema tc) as Hcalls.
  pose proof (reject_lint_passes_iff lint c schema tc) as Hlintiff.
  rewrite reject_comparisons_run, Hfix.
  destruct (reject_lint lint c schema tc []) as [log1 [e | []]] eqn:Hlint; cbn [fst] in Hcalls.
  { cbn [snd]. split; [discriminate |].
    intros (output & r & ? & ? & ? & ? & ? & H0 & Hr & Hpe & Hlen & Hch & _).
    destruct (proj2 Hlintiff) as [log H]; [| discriminate H].
    exists output, r. rewrite expected_length_warnings, length_app, !length_map. auto. }
  assert (Hone : invocations log1 = 1%nat) by (unfold invocations; rewrite Hcalls; reflexivity).
  destruct (proj1 Hlintiff) as (output & r & H0 & Hr & Hpe & Hlen & Hch); [eauto |].
  rewrite expected_length_warnings, length_app, !length_map in Hlen.
  unfold reject_fix. unfold mbind at 1. unfold Test_bind.
  destruct (reject_autofix lint c schema tc log1) as [log2 [e | [outputAfterFix fixedCode]]]
    eqn:Hauto.
  { cbn [snd]. split; [discriminate |].
    intros (? & ? & outputAfterFix & afterFix & fixedCode & ? & ? & _ & _ & _ & _ & _
            & H1 & _ & Hcss & Hb & _).
    rewrite <- Hone in H1. destruct (proj2 (Hbranch _ _ _ H1 Hcss) Hb) as [log' H].
    congruence. }
  destruct (reject_autofix_success _ _ _ _ _ _ _ _ Hauto) as (H1 & Hcss & Hcalls2).
  assert (Htwo : invocations log2 = 2%nat).
  { unfold invocations. rewrite Hcalls2, Hcalls. reflexivity. }
  pose proof (proj1 (Hbranch _ _ _ H1 Hcss) (ex_intro _ log2 Hauto)) as Hb.
  rewrite Hone in H1.
  pose proof (reject_relint_passes_iff lint c schema tc outputAfterFix fixedCode log2) as Hrel.
  rewrite Htwo in Hrel.
  rewrite snd_inr_run. rewrite Hrel. split.
  - intros (outputRelint & relint & afterFix & H2 & Haf & Hr2 & Hw & Hp).
    exists output, r, outputAfterFix, afterFix, fixedCode, outputRelint, relint.
    repeat (split; [assumption |]). assumption.
  - intros (output' & r' & outputAfterFix' & afterFix & fixedCode' & outputRelint & relint
            & _ & _ & _ & _ & _ & H1' & Haf & Hcss' & _ & H2 & Hr2 & Hw & Hp).
    unfold options in H1'.
    assert (outputAfterFix' = outputAfterFix) as -> by congruence.
    assert (fixedCode' = fixedCode) as -> by congruence.
    exists outputRelint, relint, afterFix. auto.
Qed.

(** [reject_passes_with_fix] at a sample schema with a fixable case and an
    engine that fixes it. *)
Lemma reject_passes_with_fix_witness :
  truthy_bool (TestSchema.fix_ Sample.schema_fixable) = true
  /\ exists outputAfterFix,
       Sample.lint_fixing 1%nat
         (StylelintOptions.mk "b{}" Sample.config None None (Some true))
       = inr outputAfterFix
       /\ getOutputCss outputAfterFix = inr "a{}".
Proof.
  split; [reflexivity |].
  destruct (proj1 (reject_passes_with_fix Sample.lint_fixing Sample.config
                     Sample.schema_fixable Sample.reject_b_fixable eq_refl)
              ltac:(vm_compute; reflexivity))
    as (output & r & outputAfterFix & afterFix & fixedCode & outputRelint & relint
        & _ & _ & _ & _ & _ & H1 & _ & Hcss & Hbranch & _).
  exists outputAfterFix. split; [exact H1 |].
  cbn in Hbranch. destruct Hbranch as [[= <-] _]. exact Hcss.
Defined.

(** *** The engine invocations of a test *)

Lemma reject_autofix_calls lint c schema tc log :
  let fix_options :=
    StylelintOptions.with_fix (Some true)
      (stylelintOptions c schema (RejectTestCase.code tc)) in
  engine_calls (reject_autofix lint c schema tc log).1 = engine_calls log
  \/ engine_calls (reject_autofix lint c schema tc log).1 = engine_calls log ++ [fix_options].
Proof.
  unfold reject_autofix, mbind, Test_bind, await_lint, lift, expect, throw, mret, Test_ret.
  cbv zeta.
  repeat (case_match; simplify_eq); cbn [fst];
    rewrite ?engine_calls_snoc_expect, ?engine_calls_snoc_lint; auto.
Qed.

Lemma reject_relint_calls lint c schema tc outputAfterFix fixedCode log :
  engine_calls (reject_relint lint c schema tc outputAfterFix fixedCode log).1
  = engine_calls log
    ++ [StylelintOptions.mk fixedCode c (TestSchema.customSyntax schema)
          (TestSchema.codeFilename schema) (RejectTestCase.unfixable tc)].
Proof.
  unfold reject_relint, mbind, Test_bind, await_lint, lift, expect.
  repeat (case_match; simplify_eq); cbn [fst];
    rewrite ?engine_calls_snoc_expect, ?engine_calls_snoc_lint; reflexivity.
Qed.

(** X7: a reject test invokes the engine one, two or three times, always
    with the schema's [customSyntax] and [codeFilename]: first on the case's
    code without [fix], then the same with [fix: true], then on the fixed
    text with [fix] set to [unfixable]. Without the autofix flag it invokes
    it once; a test that passes under the flag has invoked it three times,
    and for an unfixable case the third invocation repeats the second. *)
Theorem reject_engine_calls lint c schema tc :
  let options := stylelintOptions c schema (RejectTestCase.code tc) in
  let fix_options := StylelintOptions.with_fix (Some true) options in
  let relint_options fixedCode :=
    StylelintOptions.mk fixedCode c (TestSchema.customSyntax schema)
      (TestSchema.codeFilename schema) (RejectTestCase.unfixable tc) in
  let calls := engine_calls (reject_comparisons lint c schema tc []).1 in
  (calls = [options] \/ calls = [options; fix_options]
   \/ exists fixedCode, calls = [options; fix_options; relint_options fixedCode])
  /\ (truthy_bool (TestSchema.fix_ schema) = false -> calls = [options])
  /\ ((reject_comparisons lint c schema tc []).2 = inr () ->
      truthy_bool (TestSchema.fix_ schema) = true ->
      exists fixedCode,
        calls = [options; fix_options; relint_options fixedCode]
        /\ (truthy_bool (RejectTestCase.unfixable tc) = true ->
            relint_options fixedCode = fix_options)).
Proof.
  intros options fix_options relint_options calls. unfold calls.
  pose proof (reject_lint_engine_calls lint c schema tc) as Hcalls. fold options in Hcalls.
  rewrite reject_comparisons_run.
  destruct (reject_lint lint c schema tc []) as [log1 [e | []]] eqn:Hlint; cbn [fst] in Hcalls.
  { cbn [fst snd]. repeat split; [tauto | tauto | discriminate]. }
  destruct (truthy_bool (TestSchema.fix_ schema)) eqn:Hfix.
  2: { cbn [fst snd]. repeat split; [tauto | tauto | discriminate]. }
  unfold reject_fix, mbind, Test_bind.
  pose proof (reject_autofix_calls lint c schema tc log1) as Hauto1. cbv zeta in Hauto1.
  fold options fix_options in Hauto1. rewrite Hcalls in Hauto1.
  destruct (reject_autofix lint c schema tc log1) as [log2 [e | [outputAfterFix fixedCode]]]
    eqn:Hauto; cbn [fst snd] in *.
  { split; [destruct Hauto1 as [-> | ->]; tauto |].
    split; intros; discriminate. }
  destruct (reject_autofix_success _ _ _ _ _ _ _ _ Hauto) as (H1 & Hcss & Hcalls2).
  rewrite Hcalls in Hcalls2. fold options fix_options in Hcalls2.
  rewrite reject_relint_calls, Hcalls2. fold (relint_options fixedCode).
  split; [right; right; eauto |]. split; [intros; discriminate |].
  intros Hpass _. exists fixedCode. split; [reflexivity |].
  intros Hunfixable.
  destruct (proj1 (unfixable_case_passes _ _ _ _ _ _ _ Hunfixable H1 Hcss)
              (ex_intro _ log2 Hauto)) as [-> _].
  unfold relint_options, fix_options, options, stylelintOptions, StylelintOptions.with_fix.
  cbn. destruct (RejectTestCase.unfixable tc) as [[|] |]; try discriminate Hunfixable.
  reflexivity.
Qed.

(** X8: an accept test invokes the engine on the case's code without
    [fix] and at most once more, the same with [fix: true]: never the second
    time without the autofix flag, always when it passes under the flag. *)
Theorem accept_engine_calls lint c schema tc :
  let options :=
    StylelintOptions.mk (TestCase.code tc) c (TestSchema.customSyntax schema)
      (TestSchema.codeFilename schema) None in
  let fix_options :=
    StylelintOptions.mk (TestCase.code tc) c (TestSchema.customSyntax schema)
      (TestSchema.codeFilename schema) (Some true) in
  let calls := engine_calls (accept_comparisons lint c schema tc []).1 in
  (calls = [options] \/ calls = [options; fix_options])
  /\ (truthy_bool (TestSchema.fix_ schema) = false -> calls = [options])
  /\ ((accept_comparisons lint c schema tc []).2 = inr () ->
      truthy_bool (TestSchema.fix_ schema) = true -> calls = [options; fix_options]).
Proof.
  change (StylelintOptions.mk (TestCase.code tc) c (TestSchema.customSyntax schema)
            (TestSchema.codeFilename schema) (Some true))
    with (StylelintOptions.with_fix (Some true) (stylelintOptions c schema (TestCase.code tc))).
  change (StylelintOptions.mk (TestCase.code tc) c (TestSchema.customSyntax schema)
            (TestSchema.codeFilename schema) None)
    with (stylelintOptions c schema (TestCase.code tc)).
  cbv zeta.
  unfold accept_comparisons, mbind, Test_bind, await_lint, lift, expect, mret, Test_ret.
  cbn [app].
  destruct (lint _ _) as [e | output];
    [cbn; repeat split; intros; try discriminate; tauto |].
  destruct (first_result output "warnings") as [e | r1];
    [cbn; repeat split; intros; try discriminate; tauto |].
  destruct (holds _); [| cbn; repeat split; intros; try discriminate; tauto].
  destruct (first_result output "parseErrors") as [e | r2];
    [cbn; repeat split; intros; try discriminate; tauto |].
  destruct (holds _); [| cbn; repeat split; intros; try discriminate; tauto].
  destruct (first_result output "invalidOptionWarnings") as [e | r3];
    [cbn; repeat split; intros; try discriminate; tauto |].
  destruct (holds _); [| cbn; repeat split; intros; try discriminate; tauto].
  destruct (truthy_bool (TestSchema.fix_ schema));
    [| cbn; repeat split; intros; try discriminate; tauto].
  cbn [negb].
  destruct (lint _ _) as [e | outputAfterFix];
    [cbn; repeat split; intros; try discriminate; tauto |].
  destruct (getOutputCss outputAfterFix) as [e | fixedCode];
    [cbn; repeat split; intros; try discriminate; tauto |].
  destruct (holds _); cbn; repeat split; intros; try discriminate; tauto.
Qed.

(** *** Tests the engine gives no result entry *)

(** X9: when the first engine invocation rejects, the test, accept or
    reject, ends with that very exception, no expectation made and the engine
    not invoked again. *)
Theorem engine_rejection_propagates lint c schema accepted rejected e :
  lint 0%nat (stylelintOptions c schema (TestCase.code accepted)) = inl e ->
  lint 0%nat (stylelintOptions c schema (RejectTestCase.code rejected)) = inl e ->
  accept_comparisons lint c schema accepted []
  = ([Lint (stylelintOptions c schema (TestCase.code accepted))], inl e)
  /\ reject_comparisons lint c schema rejected []
     = ([Lint (stylelintOptions c schema (RejectTestCase.code rejected))], inl e).
Proof.
  intros Ha Hr. split.
  - unfold accept_comparisons, mbind, Test_bind, await_lint. cbn [app].
    change (invocations []) with 0%nat. rewrite Ha. reflexivity.
  - apply reject_comparisons_fails.
    unfold reject_lint, mbind, Test_bind, await_lint. cbn [app].
    change (invocations []) with 0%nat. rewrite Hr. reflexivity.
Qed.

(** [engine_rejection_propagates] at an engine that always rejects. *)
Lemma engine_rejection_propagates_witness :
  Sample.lint_down 0%nat (stylelintOptions Sample.config Sample.schema "a{}")
  = inl (Error "engine unavailable")
  /\ Sample.lint_down 0%nat (stylelintOptions Sample.config Sample.schema "b{}")
     = inl (Error "engine unavailable")
  /\ accept_comparisons Sample.lint_down Sample.config Sample.schema Sample.accept_a []
     = ([Lint (stylelintOptions Sample.config Sample.schema "a{}")],
        inl (Error "engine unavailable"))
  /\ reject_comparisons Sample.lint_down Sample.config Sample.schema Sample.reject_b []
     = ([Lint (stylelintOptions Sample.config Sample.schema "b{}")],
        inl (Error "engine unavailable")).
Proof.
  split; [reflexivity |]. split; [reflexivity |].
  exact (engine_rejection_propagates Sample.lint_down Sample.config Sample.schema
           Sample.accept_a Sample.reject_b (Error "engine unavailable") eq_refl eq_refl).
Defined.

(** X10: when the engine's result has no entry, the test ends right after
    the first invocation with the [TypeError] of reading a property of
    [undefined]: [warnings] in an accept test, [invalidOptionWarnings] in a
    reject test. *)
Theorem missing_result_entry lint c schema accepted rejected output output' :
  lint 0%nat (stylelintOptions c schema (TestCase.code accepted)) = inr output ->
  LinterResult.results output = [] ->
  lint 0%nat (stylelintOptions c schema (RejectTestCase.code rejected)) = inr output' ->
  LinterResult.results output' = [] ->
  accept_comparisons lint c schema accepted []
  = ([Lint (stylelintOptions c schema (TestCase.code accepted))],
     inl (TypeError "Cannot read properties of undefined (reading 'warnings')"))
  /\ reject_comparisons lint c schema rejected []
     = ([Lint (stylelintOptions c schema (RejectTestCase.code rejected))],
        inl (TypeError
               "Cannot read properties of undefined (reading 'invalidOptionWarnings')")).
Proof.
  intros Ha Hea Hr Her. split.
  - unfold accept_comparisons, mbind, Test_bind, await_lint, lift, first_result. cbn [app].
    change (invocations []) with 0%nat. rewrite Ha, Hea. reflexivity.
  - apply reject_comparisons_fails.
    unfold reject_lint, mbind, Test_bind, await_lint, lift, actualWarnings, first_result.
    cbn [app]. change (invocations []) with 0%nat. rewrite Hr, Her. reflexivity.
Qed.

(** [missing_result_entry] at an engine whose results are empty. *)
Lemma missing_result_entry_witness :
  Sample.lint_nothing 0%nat (stylelintOptions Sample.config Sample.schema "a{}")
  = inr (LinterResult.mk [])
  /\ Sample.lint_nothing 0%nat (stylelintOptions Sample.config Sample.schema "b{}")
     = inr (LinterResult.mk [])
  /\ (accept_comparisons Sample.lint_nothing Sample.config Sample.schema Sample.accept_a []).2
     = inl (TypeError "Cannot read properties of undefined (reading 'warnings')")
  /\ (reject_comparisons Sample.lint_nothing Sample.config Sample.schema Sample.reject_b []).2
     = inl (TypeError
              "Cannot read properties of undefined (reading 'invalidOptionWarnings')").
Proof.
  split; [reflexivity |]. split; [reflexivity |].
  destruct (missing_result_entry Sample.lint_nothing Sample.config Sample.schema
              Sample.accept_a Sample.reject_b (LinterResult.mk []) (LinterResult.mk [])
              eq_refl eq_refl eq_refl eq_refl) as [Ha Hr].
  split; [rewrite Ha | rewrite Hr]; reflexivity.
Defined.

(** *** Reject cases with an empty [warnings] list *)

(** X11: without the autofix flag, a reject case whose [warnings] list is
    empty passes exactly when the engine reports nothing at all on it (no
    parse error, no invalid-option warning, no warning); no message is asked
    of the case. *)
Theorem empty_warnings_list lint c schema tc :
  truthy_bool (TestSchema.fix_ schema) = false ->
  RejectTestCase.warnings tc = Some [] ->
  (reject_comparisons lint c schema tc []).2 = inr ()
  <-> exists output r,
        lint 0%nat (stylelintOptions c schema (RejectTestCase.code tc)) = inr output
        /\ LinterResult.results output !! 0%nat = Some r
        /\ LintResult.parseErrors r = []
        /\ LintResult.invalidOptionWarnings r = []
        /\ LintResult.warnings r = [].
Proof.
  intros Hfix Hws.
  rewrite reject_passes_iff_lint by exact Hfix. rewrite reject_lint_passes_iff.
  unfold expected_length, expected_warnings. rewrite Hws.
  split.
  - intros (output & r & H0 & Hr & Hpe & Hlen & _). exists output, r.
    destruct (LintResult.invalidOptionWarnings r), (LintResult.warnings r);
      try discriminate Hlen. auto.
  - intros (output & r & H0 & Hr & Hpe & Hio & Hw). exists output, r.
    rewrite Hio, Hw. do 3 (split; [assumption |]). split; [reflexivity |].
    intros i w H. discriminate H.
Qed.

(** [empty_warnings_list] at a sample case on a source the engine accepts. *)
Lemma empty_warnings_list_witness :
  truthy_bool (TestSchema.fix_ Sample.schema) = false
  /\ RejectTestCase.warnings Sample.reject_nothing = Some []
  /\ (reject_comparisons Sample.lint Sample.config Sample.schema Sample.reject_nothing []).2
     = inr ().
Proof.
  split; [reflexivity |]. split; [reflexivity |].
  apply (proj2 (empty_warnings_list Sample.lint Sample.config Sample.schema
                  Sample.reject_nothing eq_refl eq_refl)).
  exists (Sample.output_of "a{}"), (Sample.result_of "a{}").
  repeat split.
Defined.

(** *** Invalid-option warnings among the actual warnings *)

(** X12: an invalid-option warning among the actual warnings carries a
    text only: it matches an expected warning exactly when that one declares
    no line, column, end line or end column and, if it has a message, the
    message is the text. *)
Theorem invalid_option_warning_matches_text_only (iw : InvalidOptionWarning.t)
    (w : Warning.t) :
  holds (WarningToMatchObject (Some (OfInvalidOption iw)) (expectedWarning w)) = true
  <-> Warning.line w = None /\ Warning.column w = None
      /\ Warning.endLine w = None /\ Warning.endColumn w = None
      /\ forall m, Warning.message w = Some m -> InvalidOptionWarning.text iw = m.
Proof.
  cbn [holds]. rewrite matches_warning_agrees. unfold agrees. cbn [property].
  destruct w as [m l c el ec]; cbn. split.
  - intros (Hm & Hl & Hc & Hel & Hec).
    repeat split.
    + destruct l as [n |]; [discriminate (Hl n eq_refl) | reflexivity].
    + destruct c as [n |]; [discriminate (Hc n eq_refl) | reflexivity].
    + destruct el as [n |]; [discriminate (Hel n eq_refl) | reflexivity].
    + destruct ec as [n |]; [discriminate (Hec n eq_refl) | reflexivity].
    + intros s Hs. specialize (Hm s Hs). congruence.
  - intros (-> & -> & -> & -> & Hm).
    repeat split; try discriminate.
    intros s Hs. rewrite (Hm s Hs). reflexivity.
Qed.
